(** * Eternal Chess: the self-driving game loop of [eternal_chess.py]

    The program plays random chess games for ever.  One call of
    [play_chess] is one tick of the loop: it finalises a finished game
    (one row inserted into the table [chess_game], one [game_over] event,
    the board reset), plays one random legal move, emits a [move] event and
    starts a timer that calls [play_chess] again.

    The embedding is shallow.  The shared mutable objects of the script
    (the [chess.Board], the sqlite table, the socket and the timers) are
    the fields of a [World]; Python exceptions are the [Raised] outcome of
    a small state-and-exception monad; the random source, the clock and the
    health of the store are inputs of a tick ([Env]).  The chess rules come
    from the library python-chess, which is not part of the script: they
    are a parameter ([Rules]) and the [Board] methods the script calls are
    defined over it.

    In this first account the store can refuse the INSERT of a tick and
    answers its SELECTs; the loop is stated again in [faulty], where the
    store can refuse the SELECTs too.  A finer account ([conn]) follows the
    functions that talk to sqlite3 connection by connection: [get_db],
    [before_request], [teardown_request], [query_db], [exec_db] and
    [init_db]. *)

From Stdlib Require Import ZArith List String Bool Lia DecimalString.
Import ListNotations.
Open Scope string_scope.
Open Scope list_scope.
Open Scope Z_scope.

Set Implicit Arguments.

(** ** Python values and exceptions *)

(** The exceptions that the statements of the script can raise. *)
Inductive exn : Type :=
| StorageError   (* sqlite3.Error out of [execute] / [commit] *)
| ValueError     (* [randint] on an empty range *)
| IndexError     (* list index out of range *)
| TypeError.     (* [int(None)] *)

Inductive outcome (A : Type) : Type :=
| Returned (a : A)
| Raised (e : exn).
Arguments Raised {A} e.

(** [len(l)] as a Python integer. *)
Definition len {A : Type} (l : list A) : Z := Z.of_nat (List.length l).

(** [l[i]] on a Python list: a negative index counts from the end, an index
    outside [-len(l) .. len(l) - 1] raises [IndexError]. *)
Definition getitem {A : Type} (l : list A) (i : Z) : outcome A :=
  let j := if i <? 0 then i + len l else i in
  if (j <? 0) || (len l <=? j) then Raised IndexError
  else match nth_error l (Z.to_nat j) with
       | Some x => Returned x
       | None => Raised IndexError
       end.

(** [str(n)] for an integer. *)
Definition str_int (n : Z) : string := NilZero.string_of_int (Z.to_int n).

(** ** The chess library *)

Module chess.

Inductive Color : Type := WHITE | BLACK.

Definition flip (c : Color) : Color :=
  match c with WHITE => BLACK | BLACK => WHITE end.

(** A move, in the coordinate notation of the library (["e2e4"]). *)
Definition Move : Type := string.

(** The state of a [chess.Board] object.  [position] stands for what the
    rules look at and the script never reads: the piece placement, the
    castling rights, the en-passant square, the half-move clock and the
    positions seen so far. *)
Record Board (Position : Type) : Type := mkBoard {
  position : Position;
  turn : Color;
  fullmove_number : Z;
  move_stack : list Move
}.

(** The rules of the game, as python-chess implements them. *)
Record Rules : Type := mkRules {
  Position : Type;
  starting_position : Position;
  (* list(board.legal_moves) *)
  legal_moves : Board Position -> list Move;
  (* the position part of the board after board.push(move) *)
  make_move : Board Position -> Move -> Position;
  is_checkmate : Board Position -> bool;
  is_insufficient_material : Board Position -> bool;
  is_seventyfive_moves : Board Position -> bool;
  is_fivefold_repetition : Board Position -> bool;
  (* board.fen() *)
  fen : Board Position -> string;
  (* str(game) of a chess.pgn.Game with the given headers *)
  export_pgn : list (string * string) -> Board Position -> string
}.

(** The boards of a given set of rules. *)
Definition board (R : Rules) : Type := Board (Position R).

(** [chess.Board()]: the starting position, White to move, move 1. *)
Definition new_board (R : Rules) : board R :=
  mkBoard (starting_position R) WHITE 1 [].

(** What the proofs need of the rules: the side to move has a move in
    the starting position, and the move generator lists no move twice. *)
Record Lawful (R : Rules) : Prop := mkLawful {
  starting_has_moves : legal_moves R (new_board R) <> [];
  legal_moves_nodup : forall b, NoDup (legal_moves R b)
}.

Section BoardMethods.
Variable R : Rules.

(** [Board.reset()] restores the starting position and clears the move
    stack. *)
Definition reset (b : board R) : board R := new_board R.

(** [Board.push(move)]: the move is appended to the move stack, the
    full-move number grows after a move of Black, the turn passes to
    the other side.  The move is not checked for legality. *)
Definition push (b : board R) (m : Move) : board R :=
  mkBoard (make_move R b m)
          (flip (turn b))
          (match turn b with
           | BLACK => fullmove_number b + 1
           | WHITE => fullmove_number b
           end)
          (move_stack b ++ [m]).

(** [Board.is_game_over()]: the seventy-five-move rule, insufficient
    material, no legal move (checkmate or stalemate), fivefold
    repetition. *)
Definition is_game_over (b : board R) : bool :=
  is_seventyfive_moves R b
  || is_insufficient_material R b
  || (match legal_moves R b with [] => true | _ :: _ => false end)
  || is_fivefold_repetition R b.

(** [Board.result()]: ["1-0"], ["0-1"], ["1/2-1/2"] or ["*"] when the
    game is not over. *)
Definition result (b : board R) : string :=
  if is_checkmate R b then
    match turn b with WHITE => "0-1" | BLACK => "1-0" end
  else if is_seventyfive_moves R b || is_fivefold_repetition R b then "1/2-1/2"
  else if is_insufficient_material R b then "1/2-1/2"
  else match legal_moves R b with
       | [] => "1/2-1/2"
       | _ :: _ => "*"
       end.
End BoardMethods.

End chess.
Import chess.

(** ** The table [chess_game] *)

Module db.

(** A row of [chess_game], without its automatic [id]. *)
Record Row : Type := mkRow {
  completion_date : string;
  is_draw : Z;
  n_moves : Z;
  winner : option string;      (* None is SQL NULL *)
  pgn : string
}.

Definition Table : Type := list Row.

(** The value in the single cell of an aggregate query.  [REAL z] is a
    floating-point cell that holds the integer [z] (the sum of integer
    cells, exact below 2^53). *)
Inductive value : Type :=
| NULL
| INTEGER (z : Z)
| REAL (z : Z).

(** [WHERE winner = s]: the comparison with NULL selects nothing. *)
Definition winner_eq (s : string) (r : Row) : bool :=
  match winner r with
  | Some w => String.eqb w s
  | None => false
  end.

(** [WHERE is_draw = z] *)
Definition is_draw_eq (z : Z) (r : Row) : bool := is_draw r =? z.

(** [SELECT COUNT] of all rows *)
Definition count_all (t : Table) : value := INTEGER (len t).

(** [SELECT COUNT] of the rows [WHERE p] *)
Definition count_where (p : Row -> bool) (t : Table) : value :=
  INTEGER (len (filter p t)).

(** [SELECT TOTAL(col)]: a floating-point sum, 0.0 on an empty table
    where [SUM] would be NULL. *)
Definition total (col : Row -> Z) (t : Table) : value :=
  REAL (fold_right Z.add 0 (map col t)).

End db.

(** ** The world of the script *)

(** The dictionary returned by [get_state]. *)
Record Stats : Type := mkStats {
  n_games : Z;
  n_white_wins : Z;
  n_black_wins : Z;
  n_draws : Z;
  n_moves : Z
}.

(** The two events sent with [socketio.emit]. *)
Inductive Event : Type :=
| game_over (stats : Stats)
| move (fen : string).

(** What a tick does to the outside, in the order it does it. *)
Inductive Effect : Type :=
| Inserted (r : db.Row)           (* a committed INSERT INTO chess_game *)
| Emitted (e : Event)             (* socketio.emit *)
| TimerStarted (interval : Z).    (* threading.Timer(interval, ...).start() *)

(** What a tick reads from the outside. *)
Record Env : Type := mkEnv {
  entropy : Z;                 (* the draw of the random source *)
  insert_fails : bool;         (* the store refuses the INSERT *)
  now_completed : string;      (* the clock, read by record_result *)
  now_header : string;         (* the clock, read by configure_pgn *)
  MOVE_INTERVAL_SEC : Z        (* app.config *)
}.

Section Script.
Variable R : Rules.

(** The objects every tick shares: the one [chess.Board] passed from tick
    to tick, the table, and the log of effects so far. *)
Record World : Type := mkWorld {
  the_board : board R;
  chess_game : db.Table;
  trace : list Effect
}.

(** *** Statements: state, exceptions and the inputs of the tick *)

Definition M (A : Type) : Type := Env -> World -> outcome A * World.

Definition ret {A : Type} (a : A) : M A := fun _ w => (Returned a, w).

Definition bind {A B : Type} (c : M A) (k : A -> M B) : M B :=
  fun e w =>
    match c e w with
    | (Returned a, w') => k a e w'
    | (Raised x, w') => (Raised x, w')
    end.

Definition raise {A : Type} (x : exn) : M A := fun _ w => (Raised x, w).

Definition lift {A : Type} (o : outcome A) : M A := fun _ w => (o, w).

Definition ask : M Env := fun e w => (Returned e, w).

Definition get_board : M (board R) := fun _ w => (Returned (the_board w), w).

Definition set_board (b : board R) : M unit :=
  fun _ w => (Returned tt, mkWorld b (chess_game w) (trace w)).

Definition log (x : Effect) : M unit :=
  fun _ w => (Returned tt, mkWorld (the_board w) (chess_game w) (trace w ++ [x])).

Notation "x <- c ;; k" := (bind c (fun x => k))
  (at level 61, c at next level, right associativity).
Notation "c ;; k" := (bind c (fun _ => k))
  (at level 61, right associativity).

(** [randint(a, b)]: an integer N with a <= N <= b, both ends included;
    [ValueError] on an empty range. *)
Definition randint (a b : Z) : M Z :=
  e <- ask ;;
  if b <? a then raise ValueError
  else ret (a + entropy e mod (b - a + 1)).

(** [int(x)] of the cell of a query. *)
Definition int (v : db.value) : M Z :=
  match v with
  | db.NULL => raise TypeError
  | db.INTEGER z => ret z
  | db.REAL z => ret z
  end.

(** [socketio.emit(...)] *)
Definition emit (ev : Event) : M unit := log (Emitted ev).

(** [threading.Timer(interval, lambda: play_chess(board)).start()] *)
Definition Timer_start (interval : Z) : M unit := log (TimerStarted interval).

(** *** The functions of the script *)

(** [query_db(query, one=True)[0]] for an aggregate [query], on a store that
    answers it ([faulty.query_db] is the query that the store can refuse). *)
Definition query_db (query : db.Table -> db.value) : M db.value :=
  fun _ w => (Returned (query (chess_game w)), w).

(** [exec_db] of the INSERT of [insert_chess_game]: the row is appended
    and committed, or the store raises. *)
Definition insert_chess_game (completion_date : string) (is_draw n_moves : Z)
    (winner : option string) (pgn : string) : M unit :=
  e <- ask ;;
  if insert_fails e then raise StorageError
  else
    let row := db.mkRow completion_date is_draw n_moves winner pgn in
    fun _ w =>
      (Returned tt,
       mkWorld (the_board w) (chess_game w ++ [row]) (trace w ++ [Inserted row])).

Definition get_n_of_games : M Z :=
  result <- query_db db.count_all ;;
  int result.

Definition get_n_white_wins : M Z :=
  result <- query_db (db.count_where (db.winner_eq "white")) ;;
  int result.

Definition get_n_black_wins : M Z :=
  result <- query_db (db.count_where (db.winner_eq "black")) ;;
  int result.

Definition get_n_draws : M Z :=
  result <- query_db (db.count_where (db.is_draw_eq 1)) ;;
  int result.

Definition get_total_moves : M Z :=
  result <- query_db (db.total db.n_moves) ;;
  int result.

Definition get_state : M Stats :=
  g <- get_n_of_games ;;
  w <- get_n_white_wins ;;
  b <- get_n_black_wins ;;
  d <- get_n_draws ;;
  m <- get_total_moves ;;
  ret (mkStats g w b d m).

Definition configure_pgn : M string :=
  b <- get_board ;;
  e <- ask ;;
  n <- get_n_of_games ;;
  ret (export_pgn R
         [("Event", "Eternal Chess");
          ("Site", "www.eternalchess.com");
          ("Date", now_header e);
          ("Round", str_int (n + 1));
          ("White", "Random");
          ("Black", "Random")]
         b).

Definition record_result : M unit :=
  e <- ask ;;
  b <- get_board ;;
  let completion_date := now_completed e in
  let is_draw := if String.eqb (result b) "1/2-1/2" then 1 else 0 in
  let n_moves := fullmove_number b in
  let winner := if String.eqb (result b) "1-0" then "white" else "black" in
  let winner := if negb (is_draw =? 0) then None else Some winner in
  pgn <- configure_pgn ;;
  insert_chess_game completion_date is_draw n_moves winner pgn.

Definition play_chess : M unit :=
  b <- get_board ;;
  (if is_game_over b then
     record_result ;;
     stats <- get_state ;;
     emit (game_over stats) ;;
     set_board (reset b)
   else ret tt) ;;
  b <- get_board ;;
  let moves := legal_moves R b in
  i <- randint 0 (len moves - 1) ;;
  mv <- lift (getitem moves i) ;;
  set_board (push b mv) ;;
  b <- get_board ;;
  emit (move (fen R b)) ;;
  e <- ask ;;
  Timer_start (MOVE_INTERVAL_SEC e).

(** The timer loop: each started timer fires once and runs the next tick
    with the next inputs; a tick that raises ends its thread, and with it
    the loop, since it has started no timer. *)
Fixpoint run (envs : list Env) (w : World) : outcome unit * World :=
  match envs with
  | [] => (Returned tt, w)
  | e :: envs' =>
      match play_chess e w with
      | (Returned _, w') => run envs' w'
      | (Raised x, w') => (Raised x, w')
      end
  end.

(** The world in which [__main__] makes the first call. *)
Definition main_world (t : db.Table) : World := mkWorld (new_board R) t [].

(** *** Notions used to state the properties *)

(** The dictionary of [get_state], as a function of the table. *)
Definition stats_of (t : db.Table) : Stats :=
  mkStats (len t)
          (len (filter (db.winner_eq "white") t))
          (len (filter (db.winner_eq "black") t))
          (len (filter (db.is_draw_eq 1) t))
          (fold_right Z.add 0 (map db.n_moves t)).

(** The board after the moves [ms], played from a new board: a game of
    [len ms] plies. *)
Definition played (ms : list Move) : board R :=
  fold_left (@push R) ms (new_board R).

(** The board whose legal moves a tick consults: the board it was given,
    or a new one when that game was over. *)
Definition consulted (w : World) : board R :=
  if is_game_over (the_board w) then reset (the_board w) else the_board w.

(** The side [c] has won on [b]: the other side is to move and is mated. *)
Definition won (c : Color) (b : board R) : Prop :=
  is_checkmate R b = true /\ turn b = flip c.

(** The effects of a tick from [w] to [w']: what it appended to the trace. *)
Definition appended (w w' : World) (l : list Effect) : Prop :=
  trace w' = trace w ++ l.

(** A row that the recorder can write: the one [record_result] appends in
    some world. *)
Definition recorded (row : db.Row) : Prop :=
  exists e w,
    record_result e w =
      (Returned tt,
       mkWorld (the_board w) (chess_game w ++ [row]) (trace w ++ [Inserted row])).

(** *** Four sentences of the specification that the script does not obey

    Each is stated here the way the specification words it, for one tick
    with the inputs [e] in the world [w]. *)

(** "On persistence failure the loop logs the failure and proceeds to reset
    regardless": at the least, the tick returns and has started the timer
    of the next one. *)
Definition survives_storage_failure (e : Env) (w : World) : Prop :=
  is_game_over (the_board w) = true ->
  insert_fails e = true ->
  exists w' l,
    play_chess e w = (Returned tt, w')
    /\ appended w w' l
    /\ In (TimerStarted (MOVE_INTERVAL_SEC e)) l.

(** "move_count equal to the number of plies played": the column [n_moves]
    of the row written for the board is the length of its move stack. *)
Definition move_count_is_plies (e : Env) (w : World) : Prop :=
  forall w' row,
    record_result e w = (Returned tt, w') ->
    chess_game w' = chess_game w ++ [row] ->
    db.n_moves row = len (move_stack (the_board w)).



End Script.

(** ** A scripted stand-in for the rules

    For running the script on concrete games: the stand-in knows the
    positions of Fool's mate (1. f3 e5 2. g4 Qh4 mate), with the legal moves
    of chess in each of them, and has no move in any other position, which
    it therefore scores as stalemate.  A position is the list of moves that
    led to it. *)

Module Book.

Definition start_white : list Move :=
  ["a2a3"; "a2a4"; "b2b3"; "b2b4"; "c2c3"; "c2c4"; "d2d3"; "d2d4";
   "e2e3"; "e2e4"; "f2f3"; "f2f4"; "g2g3"; "g2g4"; "h2h3"; "h2h4";
   "b1a3"; "b1c3"; "g1f3"; "g1h3"].

Definition after_f3 : list Move :=
  ["a7a6"; "a7a5"; "b7b6"; "b7b5"; "c7c6"; "c7c5"; "d7d6"; "d7d5";
   "e7e6"; "e7e5"; "f7f6"; "f7f5"; "g7g6"; "g7g5"; "h7h6"; "h7h5";
   "b8a6"; "b8c6"; "g8f6"; "g8h6"].

Definition after_f3_e5 : list Move :=
  ["a2a3"; "a2a4"; "b2b3"; "b2b4"; "c2c3"; "c2c4"; "d2d3"; "d2d4";
   "e2e3"; "e2e4"; "f3f4"; "g2g3"; "g2g4"; "h2h3"; "h2h4";
   "b1a3"; "b1c3"; "g1h3"; "e1f2"].

Definition after_f3_e5_g4 : list Move :=
  ["a7a6"; "a7a5"; "b7b6"; "b7b5"; "c7c6"; "c7c5"; "d7d6"; "d7d5";
   "e5e4"; "f7f6"; "f7f5"; "g7g6"; "g7g5"; "h7h6"; "h7h5";
   "b8a6"; "b8c6"; "g8f6"; "g8h6"; "g8e7";
   "f8e7"; "f8d6"; "f8c5"; "f8b4"; "f8a3";
   "d8e7"; "d8f6"; "d8g5"; "d8h4"; "e8e7"].

Definition fools_mate : list Move := ["f2f3"; "e7e5"; "g2g4"; "d8h4"].

Definition same (h h' : list Move) : bool :=
  if list_eq_dec string_dec h h' then true else false.

Definition book (h : list Move) : list Move :=
  if same h [] then start_white
  else if same h ["f2f3"] then after_f3
  else if same h ["f2f3"; "e7e5"] then after_f3_e5
  else if same h ["f2f3"; "e7e5"; "g2g4"] then after_f3_e5_g4
  else [].

Definition rules : Rules :=
  {| Position := list Move;
     starting_position := [];
     legal_moves := fun b => book (position b);
     make_move := fun b m => position b ++ [m];
     is_checkmate := fun b => same (position b) fools_mate;
     is_insufficient_material := fun _ => false;
     is_seventyfive_moves := fun _ => false;
     is_fivefold_repetition := fun _ => false;
     fen := fun b => String.concat " " (position b);
     export_pgn := fun _ b => String.concat " " (move_stack b) |}.

(** The inputs of a tick: the draw [r], and whether the INSERT fails. *)
Definition env (r : Z) (fails : bool) : Env :=
  mkEnv r fails "2015-06-01 12:00:00" "2015-06-01 12:00:00" 1.

(** The world of a tick that finds Fool's mate on the board, with the
    table [t]. *)
Definition mated (t : db.Table) : World rules :=
  mkWorld (played rules fools_mate) t [].

(** The row that the recorder writes for Fool's mate. *)
Definition mate_row : db.Row :=
  db.mkRow "2015-06-01 12:00:00" 0 3 (Some "black") "f2f3 e7e5 g2g4 d8h4".

End Book.

(** ** The page, the headers and the shape of a trace *)

(** What [render_template] is called with. *)
Inductive Page : Type :=
| render_template (template : string) (context : Stats).

(** [index()]: the root page, rendered with the dictionary of
    [get_state]. *)
Definition index (R : Rules) : M R Page :=
  bind (get_state (R:=R)) (fun s => ret (render_template "index.html" s)).

(** The headers that [configure_pgn] sets on the game, for the clock
    reading [date] and the round [round]. *)
Definition pgn_headers (date : string) (round : Z) : list (string * string) :=
  [("Event", "Eternal Chess");
   ("Site", "www.eternalchess.com");
   ("Date", date);
   ("Round", str_int round);
   ("White", "Random");
   ("Black", "Random")].

Definition is_insert (x : Effect) : bool :=
  match x with Inserted _ => true | _ => false end.

Definition is_game_over_event (x : Effect) : bool :=
  match x with Emitted (game_over _) => true | _ => false end.

Definition is_move_event (x : Effect) : bool :=
  match x with Emitted (move _) => true | _ => false end.

Definition is_timer (x : Effect) : bool :=
  match x with TimerStarted _ => true | _ => false end.

(** How many effects of a kind a trace holds. *)
Definition count (kind : Effect -> bool) (l : list Effect) : Z :=
  len (filter kind l).

(** The rows that a trace inserted, in order. *)
Fixpoint inserted_rows (l : list Effect) : list db.Row :=
  match l with
  | [] => []
  | Inserted row :: l' => row :: inserted_rows l'
  | _ :: l' => inserted_rows l'
  end.

(** ** The connections to the database

    A finer account of the functions that talk to sqlite3, which keeps
    track of the connection each call is made on.  [flask.g] belongs to
    the application context: [with app.app_context()] pushes a new context,
    whose [g] has no attribute yet, and pops it on the way out, also when
    the body raises.  The calls that sqlite3 accepts are logged in order;
    which calls it refuses, what a query answers and whether the schema file
    can be read are inputs. *)

Module conn.

(** A connection is known by its rank among the connections opened. *)
Definition Connection : Type := nat.

(** A parameter of a statement. *)
Inductive arg : Type :=
| Text (s : string)
| Integer (z : Z)
| Null.

(** The calls made to sqlite3. *)
Inductive Call : Type :=
| connect (db : Connection)             (* sqlite3.connect(DATABASE), which returned db *)
| execute (db : Connection) (query : string) (args : list arg)
| fetchall (db : Connection)
| executescript (db : Connection) (script : string)
| commit (db : Connection)
| close (db : Connection).

Inductive error : Type :=
| sqlite3_Error      (* a call that sqlite3 refuses *)
| IOError            (* the schema file cannot be read *)
| RuntimeError       (* flask.g outside of an application context *)
| IndexError
| TypeError.

(** The rows of a cursor. *)
Definition Rows : Type := list (list db.value).

(** What [query_db] returns: all the rows, or with [one] the first row, or
    [None] when there is none. *)
Inductive Answer : Type :=
| All (rs : Rows)
| One (r : list db.value)
| PyNone.

(** The stack of application contexts, innermost first, each with the
    attribute [db] of its [g] when it is set; and the calls made so far. *)
Record Server : Type := mkServer {
  contexts : list (option Connection);
  calls : list Call
}.

Definition is_connect (c : Call) : bool :=
  match c with connect _ => true | _ => false end.

Definition is_close (c : Call) : bool :=
  match c with close _ => true | _ => false end.

(** How many connections the calls have opened. *)
Definition opened (cs : list Call) : nat := List.length (filter is_connect cs).

(** The double quote, for the text of the queries. *)
Definition quote : string :=
  String (Ascii.Ascii false true false false false true false false) EmptyString.

Section Handlers.
(** The calls that sqlite3 refuses. *)
Variable refused : Call -> bool.
(** The rows of the cursor of a query, after the calls made so far. *)
Variable cursor : list Call -> string -> list arg -> Rows.
(** The schema file, if it can be read. *)
Variable SCHEMA_FILE : option string.

Definition S (A : Type) : Type := Server -> (error + A) * Server.

Definition ret {A : Type} (a : A) : S A := fun s => (inr a, s).

Definition bind {A B : Type} (c : S A) (k : A -> S B) : S B :=
  fun s =>
    match c s with
    | (inr a, s') => k a s'
    | (inl x, s') => (inl x, s')
    end.

Definition raise {A : Type} (x : error) : S A := fun s => (inl x, s).

Notation "x <- c ;; k" := (bind c (fun x => k))
  (at level 61, c at next level, right associativity).
Notation "c ;; k" := (bind c (fun _ => k))
  (at level 61, right associativity).

(** A call to sqlite3: refused, or made and logged. *)
Definition call (c : Call) : S unit :=
  fun s =>
    if refused c then (inl sqlite3_Error, s)
    else (inr tt, mkServer (contexts s) (calls s ++ [c])).

(** [getattr(g, 'db', None)] *)
Definition getattr_g_db : S (option Connection) :=
  fun s =>
    match contexts s with
    | [] => (inl RuntimeError, s)
    | g :: _ => (inr g, s)
    end.

(** [g.db = db] *)
Definition setattr_g_db (db : Connection) : S unit :=
  fun s =>
    match contexts s with
    | [] => (inl RuntimeError, s)
    | _ :: outer => (inr tt, mkServer (Some db :: outer) (calls s))
    end.

(** [with app.app_context(): body] *)
Definition app_context {A : Type} (body : S A) : S A :=
  fun s =>
    let (r, s') := body (mkServer (None :: contexts s) (calls s)) in
    (r, mkServer (tl (contexts s')) (calls s')).

(** [with closing(db): body]: [db.close()] on the way out, also when the
    body raises. *)
Definition closing {A : Type} (db : Connection) (body : S A) : S A :=
  fun s =>
    let (r, s') := body s in
    match call (close db) s' with
    | (inl x, s'') => (inl x, s'')
    | (inr _, s'') => (r, s'')
    end.

(** [app.open_resource(app.config['SCHEMA_FILE'], mode='r')] and
    [f.read()] *)
Definition read_schema : S string :=
  match SCHEMA_FILE with
  | Some script => ret script
  | None => raise IOError
  end.

(** [x[0]] on what [query_db] returned. *)
Definition first (x : Answer) : S db.value :=
  match x with
  | One (v :: _) => ret v
  | One [] => raise IndexError
  | PyNone => raise TypeError
  | All (_ :: _) => raise TypeError      (* int() of a row *)
  | All [] => raise IndexError
  end.

(** [int(x)] of a cell. *)
Definition int (v : db.value) : S Z :=
  match v with
  | db.NULL => raise TypeError
  | db.INTEGER z => ret z
  | db.REAL z => ret z
  end.

(** [db.execute(query, args)] of a query: the cursor holds the rows that
    the query selects in the database as the calls so far have left it. *)
Definition execute_query (db : Connection) (query : string) (args : list arg)
    : S Rows :=
  fun s =>
    bind (call (execute db query args))
         (fun _ => ret (cursor (calls s) query args)) s.

(** *** The functions of the script *)

Definition connect_db : S Connection :=
  fun s =>
    let db := opened (calls s) in
    bind (call (connect db)) (fun _ => ret db) s.

Definition init_db : S unit :=
  db <- connect_db ;;
  closing db
    (script <- read_schema ;;
     call (executescript db script) ;;
     call (commit db)).

Definition get_db : S Connection :=
  db <- getattr_g_db ;;
  match db with
  | Some db => ret db
  | None =>
      db <- connect_db ;;
      setattr_g_db db ;;
      ret db
  end.

Definition before_request : S unit :=
  db <- connect_db ;;
  setattr_g_db db.

Definition teardown_request : S unit :=
  db <- getattr_g_db ;;
  match db with
  | Some db => call (close db)
  | None => ret tt
  end.

Definition query_db (query : string) (args : list arg) (one : bool) : S Answer :=
  app_context
    (db <- get_db ;;
     cur <- execute_query db query args ;;
     call (fetchall db) ;;
     let rs := cur in
     ret (if one then match rs with r :: _ => One r | [] => PyNone end
          else All rs)).

Definition exec_db (query : string) (args : list arg) : S unit :=
  app_context
    (db <- get_db ;;
     call (execute db query args) ;;
     db <- get_db ;;
     call (commit db)).

Definition insert_chess_game (completion_date : string) (is_draw n_moves : Z)
    (winner : option string) (pgn : string) : S unit :=
  let query := ("INSERT INTO chess_game"
                ++ "(completion_date, is_draw, n_moves, winner, pgn)"
                ++ "VALUES (?, ?, ?, ?, ?)")%string in
  let args := [Text completion_date; Integer is_draw; Integer n_moves;
               match winner with Some w => Text w | None => Null end;
               Text pgn] in
  exec_db query args.

Definition count_query : string :=
  ("SELECT COUNT(" ++ "*" ++ ") FROM chess_game")%string.

Definition get_n_of_games : S Z :=
  app_context
    (let query := count_query in
     x <- query_db query [] true ;;
     result <- first x ;;
     int result).

Definition get_n_white_wins : S Z :=
  app_context
    (let query :=
       (count_query ++ " WHERE winner = " ++ quote ++ "white" ++ quote)%string in
     x <- query_db query [] true ;;
     result <- first x ;;
     int result).

Definition get_n_black_wins : S Z :=
  app_context
    (let query :=
       (count_query ++ " WHERE winner = " ++ quote ++ "black" ++ quote)%string in
     x <- query_db query [] true ;;
     result <- first x ;;
     int result).

Definition get_n_draws : S Z :=
  app_context
    (let query := (count_query ++ " WHERE is_draw = 1")%string in
     x <- query_db query [] true ;;
     result <- first x ;;
     int result).

Definition get_total_moves : S Z :=
  app_context
    (let query := "SELECT TOTAL(n_moves) FROM chess_game" in
     x <- query_db query [] true ;;
     result <- first x ;;
     int result).

Definition get_state : S Stats :=
  g <- get_n_of_games ;;
  w <- get_n_white_wins ;;
  b <- get_n_black_wins ;;
  d <- get_n_draws ;;
  m <- get_total_moves ;;
  ret (mkStats g w b d m).

(** *** Notions used to state the properties *)

(** The cursors of the five queries of the statistics on a database whose
    table [chess_game] is [t]: one row with one cell, the aggregate.  Other
    queries are not answered. *)
Definition table_cursor (t : db.Table) (cs : list Call) (query : string)
    (args : list arg) : Rows :=
  if String.eqb query count_query then
    [[db.count_all t]]
  else if String.eqb query
            (count_query ++ " WHERE winner = " ++ quote ++ "white" ++ quote)%string then
    [[db.count_where (db.winner_eq "white") t]]
  else if String.eqb query
            (count_query ++ " WHERE winner = " ++ quote ++ "black" ++ quote)%string then
    [[db.count_where (db.winner_eq "black") t]]
  else if String.eqb query (count_query ++ " WHERE is_draw = 1")%string then
    [[db.count_where (db.is_draw_eq 1) t]]
  else if String.eqb query "SELECT TOTAL(n_moves) FROM chess_game" then
    [[db.total db.n_moves t]]
  else [].

(** The statement [c] opens [n] connections and closes none: from every
    state it leaves the stack of contexts as it found it, closes no
    connection, opens at most [n], and exactly [n] when it returns. *)
Definition leaves_open {A : Type} (n : nat) (c : S A) : Prop :=
  forall s,
    exists r new,
      c s = (r, mkServer (contexts s) (calls s ++ new))
      /\ filter is_close new = []
      /\ (opened new <= n)%nat
      /\ (forall a, r = inr a -> opened new = n).

End Handlers.

End conn.

(** ** The loop on a store that can refuse any call

    In the account of the script above the store can refuse the INSERT
    only.  The script makes its SELECTs through the same unguarded calls to
    sqlite3: one in [configure_pgn] and five in [get_state].  Here each of
    them can be refused as well, and the functions that reach the store are
    stated again with that; the rest of the world is shared. *)

Module faulty.

(** Which of the six queries of a tick the store refuses. *)
Record Refusals : Type := mkRefusals {
  round_query : bool;      (* get_n_of_games() in configure_pgn *)
  games_query : bool;      (* get_n_of_games() in get_state *)
  white_query : bool;      (* get_n_white_wins() *)
  black_query : bool;      (* get_n_black_wins() *)
  draws_query : bool;      (* get_n_draws() *)
  moves_query : bool       (* get_total_moves() *)
}.

(** The store refuses one of the queries of [get_state]. *)
Definition refuses_statistics (f : Refusals) : bool :=
  games_query f || white_query f || black_query f || draws_query f || moves_query f.

(** The store refuses one of the calls of a tick with the inputs [e]. *)
Definition refuses (f : Refusals) (e : Env) : bool :=
  round_query f || insert_fails e || refuses_statistics f.

Section Script.
Variable R : Rules.

Notation "x <- c ;; k" := (bind c (fun x => k))
  (at level 61, c at next level, right associativity).
Notation "c ;; k" := (bind c (fun _ => k))
  (at level 61, right associativity).

(** [query_db(query, one=True)[0]]: sqlite3 raises, or the query is
    answered. *)
Definition query_db (refused : bool) (query : db.Table -> db.value)
    : M R db.value :=
  if refused then raise StorageError else query_db query.

Definition get_n_of_games (refused : bool) : M R Z :=
  result <- query_db refused db.count_all ;;
  int result.

Definition get_n_white_wins (refused : bool) : M R Z :=
  result <- query_db refused (db.count_where (db.winner_eq "white")) ;;
  int result.

Definition get_n_black_wins (refused : bool) : M R Z :=
  result <- query_db refused (db.count_where (db.winner_eq "black")) ;;
  int result.

Definition get_n_draws (refused : bool) : M R Z :=
  result <- query_db refused (db.count_where (db.is_draw_eq 1)) ;;
  int result.

Definition get_total_moves (refused : bool) : M R Z :=
  result <- query_db refused (db.total db.n_moves) ;;
  int result.

Definition get_state (f : Refusals) : M R Stats :=
  g <- get_n_of_games (games_query f) ;;
  w <- get_n_white_wins (white_query f) ;;
  b <- get_n_black_wins (black_query f) ;;
  d <- get_n_draws (draws_query f) ;;
  m <- get_total_moves (moves_query f) ;;
  ret (mkStats g w b d m).

Definition configure_pgn (f : Refusals) : M R string :=
  b <- get_board (R:=R) ;;
  e <- ask (R:=R) ;;
  n <- get_n_of_games (round_query f) ;;
  ret (export_pgn R
         [("Event", "Eternal Chess");
          ("Site", "www.eternalchess.com");
          ("Date", now_header e);
          ("Round", str_int (n + 1));
          ("White", "Random");
          ("Black", "Random")]
         b).

Definition record_result (f : Refusals) : M R unit :=
  e <- ask (R:=R) ;;
  b <- get_board (R:=R) ;;
  let completion_date := now_completed e in
  let is_draw := if String.eqb (result b) "1/2-1/2" then 1 else 0 in
  let n_moves := fullmove_number b in
  let winner := if String.eqb (result b) "1-0" then "white" else "black" in
  let winner := if negb (is_draw =? 0) then None else Some winner in
  pgn <- configure_pgn f ;;
  insert_chess_game completion_date is_draw n_moves winner pgn.

Definition play_chess (f : Refusals) : M R unit :=
  b <- get_board (R:=R) ;;
  (if is_game_over b then
     record_result f ;;
     stats <- get_state f ;;
     emit (game_over stats) ;;
     set_board (reset b)
   else ret tt) ;;
  b <- get_board (R:=R) ;;
  let moves := legal_moves R b in
  i <- randint 0 (len moves - 1) ;;
  mv <- lift (getitem moves i) ;;
  set_board (push b mv) ;;
  b <- get_board (R:=R) ;;
  emit (move (fen R b)) ;;
  e <- ask (R:=R) ;;
  Timer_start (MOVE_INTERVAL_SEC e).

(** The timer loop, each tick with its inputs and the refusals of the
    store. *)
Fixpoint run (inputs : list (Refusals * Env)) (w : World R)
    : outcome unit * World R :=
  match inputs with
  | [] => (Returned tt, w)
  | (f, e) :: inputs' =>
      match play_chess f e w with
      | (Returned _, w') => run inputs' w'
      | (Raised x, w') => (Raised x, w')
      end
  end.

End Script.

End faulty.

(** * Properties *)

(** ** Python lists and [randint] *)

Lemma len_nonneg {A : Type} (l : list A) : 0 <= len l.
Proof. unfold len. lia. Qed.

Lemma len_pos {A : Type} (l : list A) : l <> [] -> 0 < len l.
Proof. destruct l as [|x l]; [congruence | intros _; unfold len; cbn [List.length]; lia]. Qed.

Lemma len_app {A : Type} (l l' : list A) : len (l ++ l') = len l + len l'.
Proof. unfold len. rewrite length_app. lia. Qed.

(** Inside its bounds, [l[i]] is the element at position [i]. *)
Lemma getitem_in_range {A : Type} (l : list A) (i : Z) :
  0 <= i < len l ->
  exists x, getitem l i = Returned x /\ nth_error l (Z.to_nat i) = Some x /\ In x l.
Proof.
  intros Hi. unfold getitem.
  destruct (i <? 0) eqn:Hneg; [apply Z.ltb_lt in Hneg; lia|].
  rewrite Hneg. cbn [orb].
  destruct (len l <=? i) eqn:Hle; [apply Z.leb_le in Hle; lia|].
  destruct (nth_error l (Z.to_nat i)) as [x|] eqn:Hx.
  - exists x. repeat split. eapply nth_error_In; eauto.
  - apply nth_error_None in Hx. unfold len in Hi. lia.
Qed.

(** Outside them, counted from the front, it raises. *)
Lemma getitem_beyond {A : Type} (l : list A) (i : Z) :
  len l <= i -> getitem l i = Raised IndexError.
Proof.
  intros Hi. pose proof (len_nonneg l). unfold getitem.
  destruct (i <? 0) eqn:Hneg; [apply Z.ltb_lt in Hneg; lia|].
  rewrite Hneg. cbn [orb].
  destruct (len l <=? i) eqn:Hle; [reflexivity | apply Z.leb_gt in Hle; lia].
Qed.

Section Facts.
Variable R : Rules.

Notation "x <- c ;; k" := (bind c (fun x => k))
  (at level 61, c at next level, right associativity).
Notation "c ;; k" := (bind c (fun _ => k))
  (at level 61, right associativity).

(** [randint(0, n - 1)] on a non-empty range returns the draw reduced into
    the range, and touches nothing. *)
Lemma randint_range (n : Z) (e : Env) (w : World R) :
  0 < n ->
  randint 0 (n - 1) e w = (Returned (entropy e mod n), w)
  /\ 0 <= entropy e mod n < n.
Proof.
  intros Hn. unfold randint, bind, ask, ret, raise.
  destruct (n - 1 <? 0) eqn:H; [apply Z.ltb_lt in H; lia|].
  replace (n - 1 - 0 + 1) with n by lia. cbn.
  split; [reflexivity | apply Z.mod_pos_bound; lia].
Qed.

(** On an empty range it raises. *)
Lemma randint_empty (e : Env) (w : World R) :
  randint 0 (0 - 1) e w = (Raised ValueError, w).
Proof. reflexivity. Qed.

(** ** The queries *)

(** [get_state] always returns, and only reads. *)
Lemma get_state_returns (e : Env) (w : World R) :
  get_state e w = (Returned (stats_of (chess_game w)), w).
Proof. reflexivity. Qed.

Lemma get_n_of_games_returns (e : Env) (w : World R) :
  get_n_of_games e w = (Returned (len (chess_game w)), w).
Proof. reflexivity. Qed.

(** ** The recorder *)

(** When the store refuses the INSERT, [record_result] raises and leaves
    the world as it was. *)
Lemma record_result_raises (e : Env) (w : World R) :
  insert_fails e = true ->
  record_result e w = (Raised StorageError, w).
Proof.
  intros Hf. unfold record_result, insert_chess_game, bind, ask. cbn.
  rewrite Hf. reflexivity.
Qed.

(** Otherwise it appends one row, whose columns are read off the board. *)
Lemma record_result_inserts (e : Env) (w : World R) :
  insert_fails e = false ->
  exists row,
    record_result e w =
      (Returned tt,
       mkWorld (the_board w) (chess_game w ++ [row]) (trace w ++ [Inserted row]))
    /\ db.n_moves row = fullmove_number (the_board w)
    /\ db.is_draw row =
         (if String.eqb (result (the_board w)) "1/2-1/2" then 1 else 0)
    /\ db.winner row =
         (if String.eqb (result (the_board w)) "1/2-1/2" then None
          else if String.eqb (result (the_board w)) "1-0" then Some "white"
          else Some "black").
Proof.
  intros Hf. unfold record_result, insert_chess_game, bind, ask. cbn.
  rewrite Hf. eexists. split; [reflexivity|]. cbn.
  destruct (String.eqb (result (the_board w)) "1/2-1/2"); cbn; auto.
  destruct (String.eqb (result (the_board w)) "1-0"); auto.
Qed.

(** The result of a finished game is decided: it is never ["*"]. *)
Lemma game_over_result (b : board R) :
  is_game_over b = true ->
  result b = "1-0" \/ result b = "0-1" \/ result b = "1/2-1/2".
Proof.
  unfold is_game_over, result. intros H.
  destruct (is_checkmate R b); [destruct (turn b); auto|].
  destruct (is_seventyfive_moves R b); cbn in *; auto.
  destruct (is_fivefold_repetition R b); cbn in *; auto.
  destruct (is_insufficient_material R b); cbn in *; auto.
  destruct (legal_moves R b); cbn in *; auto.
  discriminate.
Qed.

(** A game that is not over has a legal move. *)
Lemma not_over_has_moves (b : board R) :
  is_game_over b = false -> legal_moves R b <> [].
Proof.
  unfold is_game_over. intros H Hnil. rewrite Hnil in H.
  rewrite orb_true_r in H. cbn in H. discriminate.
Qed.

(** The board a tick consults has a legal move. *)
Lemma consulted_has_moves (L : Lawful R) (w : World R) :
  legal_moves R (consulted w) <> [].
Proof.
  unfold consulted. destruct (is_game_over (the_board w)) eqn:H.
  - apply (starting_has_moves L).
  - now apply not_over_has_moves.
Qed.

(** ** One tick *)

(** The second half of a tick, from [moves = list(board.legal_moves)] on,
    on a board that has a legal move: the move at the drawn index is
    pushed, one [move] event is emitted and one timer is started. *)
Lemma move_half (e : Env) (w : World R) :
  let b := the_board w in
  let moves := legal_moves R b in
  moves <> [] ->
  exists mv,
    getitem moves (entropy e mod len moves) = Returned mv
    /\ In mv moves
    /\ (b <- get_board (R:=R) ;;
        i <- randint 0 (len (legal_moves R b) - 1) ;;
        mv <- lift (getitem (legal_moves R b) i) ;;
        set_board (push b mv) ;;
        b <- get_board (R:=R) ;;
        emit (move (fen R b)) ;;
        e <- ask (R:=R) ;;
        Timer_start (MOVE_INTERVAL_SEC e)) e w =
       (Returned tt,
        mkWorld (push b mv) (chess_game w)
                (trace w ++ [Emitted (move (fen R (push b mv)));
                             TimerStarted (MOVE_INTERVAL_SEC e)])).
Proof.
  intros b moves Hne.
  assert (Hpos : 0 < len moves) by now apply len_pos.
  destruct (randint_range e w Hpos) as [Hrand Hrange].
  destruct (getitem_in_range moves Hrange) as (mv & Hget & _ & Hin).
  exists mv. split; [exact Hget|]. split; [exact Hin|].
  unfold bind at 1, get_board at 1. fold b. fold moves.
  unfold bind at 1. rewrite Hrand.
  unfold bind at 1, lift at 1. rewrite Hget.
  cbn. unfold Timer_start, log. cbn. rewrite <- app_assoc. reflexivity.
Qed.

(** A tick on a game that is not over: one legal move, chosen by the draw,
    is pushed; one [move] event is emitted; the next tick is scheduled.
    Nothing is recorded and the board is not reset. *)
Lemma tick_running (e : Env) (w : World R) :
  is_game_over (the_board w) = false ->
  let b := the_board w in
  let moves := legal_moves R b in
  exists mv,
    getitem moves (entropy e mod len moves) = Returned mv
    /\ In mv moves
    /\ play_chess e w =
         (Returned tt,
          mkWorld (push b mv) (chess_game w)
                  (trace w ++ [Emitted (move (fen R (push b mv)));
                               TimerStarted (MOVE_INTERVAL_SEC e)])).
Proof.
  intros Hover b moves.
  destruct (@move_half e w (not_over_has_moves _ Hover)) as (mv & Hget & Hin & Hrun).
  exists mv. split; [exact Hget|]. split; [exact Hin|].
  unfold play_chess, bind at 1, get_board at 1.
  rewrite Hover. unfold bind at 1, ret at 1. exact Hrun.
Qed.

(** A tick on a finished game whose INSERT is refused: the exception
    leaves [play_chess] before anything has happened. *)
Lemma tick_storage_error (e : Env) (w : World R) :
  is_game_over (the_board w) = true ->
  insert_fails e = true ->
  play_chess e w = (Raised StorageError, w).
Proof.
  intros Hover Hf.
  unfold play_chess, bind at 1, get_board at 1. rewrite Hover.
  unfold bind at 1, bind at 1. rewrite (@record_result_raises e w Hf). reflexivity.
Qed.

(** A tick on a finished game whose INSERT succeeds: the row is inserted,
    the dictionary of the table that holds it is sent with [game_over], the
    board is reset, and then the tick goes on as on a game that is not
    over: it pushes one legal move of the new game, emits [move] and starts
    the timer. *)
Lemma tick_finalizing (L : Lawful R) (e : Env) (w : World R) :
  is_game_over (the_board w) = true ->
  insert_fails e = false ->
  let b := new_board R in
  let moves := legal_moves R b in
  exists row mv,
    record_result e w =
      (Returned tt,
       mkWorld (the_board w) (chess_game w ++ [row]) (trace w ++ [Inserted row]))
    /\ getitem moves (entropy e mod len moves) = Returned mv
    /\ In mv moves
    /\ play_chess e w =
         (Returned tt,
          mkWorld (push b mv) (chess_game w ++ [row])
                  (trace w ++ [Inserted row;
                               Emitted (game_over (stats_of (chess_game w ++ [row])));
                               Emitted (move (fen R (push b mv)));
                               TimerStarted (MOVE_INTERVAL_SEC e)])).
Proof.
  intros Hover Hf b moves.
  destruct (@record_result_inserts e w Hf) as (row & Hrec & _).
  set (w1 := mkWorld b (chess_game w ++ [row])
               (trace w ++ [Inserted row;
                            Emitted (game_over (stats_of (chess_game w ++ [row])))])).
  destruct (@move_half e w1 (starting_has_moves L)) as (mv & Hget & Hin & Hrun).
  exists row, mv. split; [exact Hrec|]. split; [exact Hget|]. split; [exact Hin|].
  unfold play_chess, bind at 1, get_board at 1. rewrite Hover.
  unfold bind at 1, bind at 1. rewrite Hrec.
  unfold bind at 1. rewrite get_state_returns.
  unfold bind at 1, emit, log, set_board, reset. cbn [the_board chess_game trace].
  rewrite <- app_assoc. cbn [app]. fold b. fold w1.
  etransitivity; [exact Hrun|].
  subst w1. cbn [the_board chess_game trace].
  rewrite <- app_assoc. reflexivity.
Qed.

(** ** The board of a game played from the start *)

Lemma played_snoc (ms : list Move) (m : Move) :
  played R (ms ++ [m]) = push (played R ms) m.
Proof. unfold played. now rewrite fold_left_app. Qed.

(** The move stack of a game is the list of its plies. *)
Lemma played_move_stack (ms : list Move) : move_stack (played R ms) = ms.
Proof.
  induction ms as [|m ms IH] using rev_ind; [reflexivity|].
  rewrite played_snoc. cbn. now rewrite IH.
Qed.

(** White moves on the even plies, and the full-move number counts the
    pairs of plies begun. *)
Lemma played_counters (ms : list Move) :
  fullmove_number (played R ms) = 1 + len ms / 2
  /\ turn (played R ms) = (if Z.even (len ms) then WHITE else BLACK).
Proof.
  induction ms as [|m ms [IHn IHt]] using rev_ind; [split; reflexivity|].
  rewrite played_snoc, len_app. change (len [m]) with 1.
  pose proof (len_nonneg ms) as Hlen.
  cbn [push fullmove_number turn]. rewrite IHn, IHt.
  rewrite (Z.even_add (len ms) 1). change (Z.even 1) with false.
  destruct (Z.even (len ms)) eqn:Hev; cbn [flip Bool.eqb]; split; try reflexivity.
  - apply Z.even_spec in Hev. destruct Hev as [k Hk]. rewrite Hk.
    Z.div_mod_to_equations. lia.
  - assert (Hodd : Z.odd (len ms) = true) by (rewrite <- Z.negb_even, Hev; reflexivity).
    apply Z.odd_spec in Hodd. destruct Hodd as [k Hk]. rewrite Hk.
    Z.div_mod_to_equations. lia.
Qed.

(** ** The loop *)

(** A tick either stops on the storage error of a finished game, or
    returns with one legal move pushed on the board it consulted and at
    most one row, written by the recorder, added to the table. *)
Lemma tick_cases (L : Lawful R) (e : Env) (w : World R) :
  (is_game_over (the_board w) = true
   /\ insert_fails e = true
   /\ play_chess e w = (Raised StorageError, w))
  \/ exists w' mv,
       play_chess e w = (Returned tt, w')
       /\ In mv (legal_moves R (consulted w))
       /\ the_board w' = push (consulted w) mv
       /\ (chess_game w' = chess_game w
           \/ exists row, recorded R row /\ chess_game w' = chess_game w ++ [row]).
Proof.
  unfold consulted.
  destruct (is_game_over (the_board w)) eqn:Hover.
  - destruct (insert_fails e) eqn:Hf.
    + left. split; [reflexivity|]. split; [reflexivity|].
      now apply tick_storage_error.
    + right.
      destruct (@tick_finalizing L e w Hover Hf) as (row & mv & Hrec & _ & Hin & Hrun).
      eexists. exists mv. split; [exact Hrun|]. split; [exact Hin|].
      split; [reflexivity|]. right. exists row.
      split; [exists e, w; exact Hrec | reflexivity].
  - right.
    destruct (@tick_running e w Hover) as (mv & _ & Hin & Hrun).
    eexists. exists mv. split; [exact Hrun|]. split; [exact Hin|].
    split; [reflexivity|]. left. reflexivity.
Qed.

(** The board a tick consults in a game played from the start is itself a
    game played from the start. *)
Lemma consulted_played (w : World R) :
  (exists ms, the_board w = played R ms) ->
  exists ms, consulted w = played R ms.
Proof.
  intros [ms Hms]. unfold consulted.
  destruct (is_game_over (the_board w)); [exists []; reflexivity | exists ms; exact Hms].
Qed.

(** However long the loop runs, it ends only with the storage error; the
    table holds rows of the recorder only; and the board is that of a game
    played from the start. *)
Lemma run_invariant (L : Lawful R) (envs : list Env) (w : World R) :
  exists o w',
    run envs w = (o, w')
    /\ (o = Returned tt \/ o = Raised StorageError)
    /\ (Forall (recorded R) (chess_game w) -> Forall (recorded R) (chess_game w'))
    /\ ((exists ms, the_board w = played R ms) ->
        exists ms, the_board w' = played R ms).
Proof.
  revert w. induction envs as [|e envs IH]; intros w.
  - exists (Returned tt), w. cbn [run]. auto.
  - cbn [run].
    destruct (tick_cases L e w) as [(_ & _ & Hrun)|(w1 & mv & Hrun & _ & Hboard & Htable)];
      rewrite Hrun.
    + exists (Raised StorageError), w. auto.
    + destruct (IH w1) as (o & w' & Hrest & Ho & Hrows & Hplayed).
      exists o, w'. split; [exact Hrest|]. split; [exact Ho|]. split.
      * intros Hw. apply Hrows.
        destruct Htable as [-> | (row & Hrow & ->)]; [exact Hw|].
        apply Forall_app. split; [exact Hw | repeat constructor; exact Hrow].
      * intros Hw. apply Hplayed.
        destruct (@consulted_played w Hw) as [ms Hms].
        exists (ms ++ [mv]). rewrite played_snoc, <- Hms. exact Hboard.
Qed.

(** While the store accepts every INSERT, the loop goes on. *)
Lemma run_goes_on (L : Lawful R) (envs : list Env) (w : World R) :
  Forall (fun e => insert_fails e = false) envs ->
  exists w', run envs w = (Returned tt, w').
Proof.
  intros Hok. revert w. induction Hok as [|e envs He _ IH]; intros w.
  - exists w. reflexivity.
  - cbn [run].
    destruct (tick_cases L e w) as [(_ & Hf & _)|(w1 & mv & Hrun & _)].
    + rewrite He in Hf. discriminate Hf.
    + rewrite Hrun. apply IH.
Qed.

End Facts.

(** ** The scripted rules *)

Lemma Book_cases (h : list Move) :
  Book.book h = Book.start_white \/ Book.book h = Book.after_f3
  \/ Book.book h = Book.after_f3_e5 \/ Book.book h = Book.after_f3_e5_g4
  \/ Book.book h = [].
Proof.
  unfold Book.book.
  destruct (Book.same h []); auto.
  destruct (Book.same h ["f2f3"]); auto.
  destruct (Book.same h ["f2f3"; "e7e5"]); auto.
  destruct (Book.same h ["f2f3"; "e7e5"; "g2g4"]); auto 6.
Qed.

Lemma NoDup_by_nodup (l : list Move) : nodup string_dec l = l -> NoDup l.
Proof. intros H. rewrite <- H. apply NoDup_nodup. Qed.

(** The scripted rules are lawful. *)
Lemma Book_lawful : Lawful Book.rules.
Proof.
  split.
  - discriminate.
  - intros b. change (NoDup (Book.book (position b))).
    destruct (Book_cases (position b)) as [H|[H|[H|[H|H]]]]; rewrite H;
      solve [apply NoDup_by_nodup; vm_compute; reflexivity | constructor].
Qed.

(** Fool's mate on the board: four plies, White to move and mated. *)
Example fools_mate_board :
  played Book.rules Book.fools_mate =
    mkBoard (Position := list Move) Book.fools_mate WHITE 3 Book.fools_mate
  /\ is_game_over (played Book.rules Book.fools_mate) = true
  /\ result (played Book.rules Book.fools_mate) = "0-1".
Proof. repeat split. Qed.

(** Four ticks with the draws 10, 9, 12 and 28 play Fool's mate from the
    new board: four [move] events, four timers, nothing recorded. *)
Example four_ticks_to_mate :
  run [Book.env 10 false; Book.env 9 false; Book.env 12 false; Book.env 28 false]
      (main_world Book.rules []) =
    (Returned tt,
     mkWorld (played Book.rules Book.fools_mate) []
       [Emitted (move "f2f3"); TimerStarted 1;
        Emitted (move "f2f3 e7e5"); TimerStarted 1;
        Emitted (move "f2f3 e7e5 g2g4"); TimerStarted 1;
        Emitted (move "f2f3 e7e5 g2g4 d8h4"); TimerStarted 1]).
Proof. reflexivity. Qed.

(** The fifth tick finds the game over: it records it, announces it,
    resets the board, and plays the first move of the next game. *)
Example fifth_tick :
  play_chess (Book.env 10 false) (Book.mated []) =
    (Returned tt,
     mkWorld (played Book.rules ["f2f3"]) [Book.mate_row]
       [Inserted Book.mate_row;
        Emitted (game_over (mkStats 1 0 1 0 3));
        Emitted (move "f2f3");
        TimerStarted 1]).
Proof. reflexivity. Qed.

(** The same tick when the store refuses the INSERT. *)
Example fifth_tick_refused :
  play_chess (Book.env 10 true) (Book.mated []) =
    (Raised StorageError, Book.mated []).
Proof. reflexivity. Qed.

(** Python indexing: from the end, and out of range. *)
Example getitem_examples :
  getitem [1; 2; 3] 0 = Returned 1
  /\ getitem [1; 2; 3] (-1) = Returned 3
  /\ getitem [1; 2; 3] 3 = Raised IndexError
  /\ getitem [1; 2; 3] (-4) = Raised IndexError.
Proof. repeat split. Qed.

(** ** C1: a storage failure during finalization *)

(** C1, as stated, fails.  With Fool's mate on the board and a store that
    refuses the INSERT, the tick does not return: it raises, so it neither
    resets the board nor starts the next timer. *)
Lemma storage_failure_not_survived :
  ~ survives_storage_failure (Book.env 10 true) (Book.mated []).
Proof.
  intros H. destruct H as (w' & l & Hrun & _); [reflexivity | reflexivity |].
  vm_compute in Hrun. discriminate Hrun.
Qed.

(** C1, amended.  If the INSERT fails while a finished game is being
    recorded, the exception leaves [play_chess]: the world is as it was
    before the tick (nothing is emitted, the board is not reset, no move is
    played, no timer is started), and the loop ends there whatever inputs
    were still to come. *)
Theorem storage_failure_propagates (R : Rules) (e : Env) (w : World R) :
  is_game_over (the_board w) = true ->
  insert_fails e = true ->
  play_chess e w = (Raised StorageError, w)
  /\ forall envs, run (e :: envs) w = (Raised StorageError, w).
Proof.
  intros Hover Hf.
  pose proof (@tick_storage_error R e w Hover Hf) as Htick.
  split; [exact Htick|].
  intros envs. cbn [run]. rewrite Htick. reflexivity.
Qed.

Lemma storage_failure_propagates_witness :
  play_chess (Book.env 10 true) (Book.mated []) = (Raised StorageError, Book.mated [])
  /\ forall envs,
       run (Book.env 10 true :: envs) (Book.mated []) = (Raised StorageError, Book.mated []).
Proof.
  apply (@storage_failure_propagates Book.rules (Book.env 10 true) (Book.mated []));
    reflexivity.
Defined.

(** ** C2: the move count of a record *)

(** C2.  The script breaks the claim.  Fool's mate is a game of four
    plies, two moves by each side; [record_result] writes [n_moves = 3] for
    it, the full-move number of the board, which is neither the plies played
    nor the moves made, but the number of the move that would come next. *)
Theorem fools_mate_move_count :
  record_result (Book.env 10 false) (Book.mated []) =
    (Returned tt,
     mkWorld (played Book.rules Book.fools_mate) [Book.mate_row]
             [Inserted Book.mate_row])
  /\ db.n_moves Book.mate_row = 3
  /\ len (move_stack (played Book.rules Book.fools_mate)) = 4.
Proof. repeat split. Qed.

(** So the sentence of the specification fails there. *)
Lemma move_count_not_plies :
  ~ move_count_is_plies (Book.env 10 false) (Book.mated []).
Proof.
  intros H.
  specialize (H (mkWorld (played Book.rules Book.fools_mate) [Book.mate_row]
                         [Inserted Book.mate_row])
                Book.mate_row eq_refl eq_refl).
  vm_compute in H. discriminate H.
Qed.

(** What the script stores, for every game: the full-move number of the
    board, which for a game of [p] plies played from the starting position
    (the [p] moves on its move stack) is [1 + p / 2], rounded down. *)
Lemma move_count_is_fullmove_number (R : Rules) (e : Env) (ms : list Move)
    (t : db.Table) (tr : list Effect) :
  insert_fails e = false ->
  exists row,
    record_result e (mkWorld (played R ms) t tr) =
      (Returned tt, mkWorld (played R ms) (t ++ [row]) (tr ++ [Inserted row]))
    /\ move_stack (played R ms) = ms
    /\ db.n_moves row = fullmove_number (played R ms)
    /\ db.n_moves row = 1 + len ms / 2.
Proof.
  intros Hf.
  destruct (@record_result_inserts R e (mkWorld (played R ms) t tr) Hf)
    as (row & Hrec & Hn & _).
  exists row. cbn [the_board chess_game trace] in *.
  split; [exact Hrec|]. split; [apply played_move_stack|]. split; [exact Hn|].
  rewrite Hn. apply played_counters.
Qed.

Lemma move_count_is_fullmove_number_witness :
  exists row,
    record_result (Book.env 10 false) (Book.mated []) =
      (Returned tt,
       mkWorld (played Book.rules Book.fools_mate) ([] ++ [row]) ([] ++ [Inserted row]))
    /\ move_stack (played Book.rules Book.fools_mate) = Book.fools_mate
    /\ db.n_moves row = fullmove_number (played Book.rules Book.fools_mate)
    /\ db.n_moves row = 1 + len Book.fools_mate / 2.
Proof.
  apply (@move_count_is_fullmove_number Book.rules (Book.env 10 false)
           Book.fools_mate [] []).
  reflexivity.
Defined.

(** ** C3: the two branches of a tick *)




(** ** C6: the board after a finalizing tick *)




(** ** C7: the move that is played is a legal one *)

(** C7.  In every tick the list of legal moves that is consulted (that of
    the board, or of the new board after a reset) is not empty, the index
    that [randint] draws is within the list, the move found there is a
    legal move, and it is the move that is pushed: the tick either raises
    the storage error of a failed INSERT, before any move is chosen, or
    returns with that move pushed.  It raises neither [ValueError] nor
    [IndexError]. *)
Theorem selected_move_is_legal (R : Rules) (L : Lawful R) (e : Env) (w : World R) :
  let b := consulted w in
  let moves := legal_moves R b in
  moves <> []
  /\ exists i mv,
       (forall w0 : World R, randint 0 (len moves - 1) e w0 = (Returned i, w0))
       /\ 0 <= i < len moves
       /\ getitem moves i = Returned mv
       /\ In mv moves
       /\ ((is_game_over (the_board w) = true
            /\ insert_fails e = true
            /\ play_chess e w = (Raised StorageError, w))
           \/ exists w', play_chess e w = (Returned tt, w')
                         /\ the_board w' = push b mv).
Proof.
  intros b moves.
  assert (Hne : moves <> []) by apply (consulted_has_moves L).
  split; [exact Hne|].
  assert (Hpos : 0 < len moves) by now apply len_pos.
  exists (entropy e mod len moves).
  assert (Hrange : 0 <= entropy e mod len moves < len moves)
    by (apply Z.mod_pos_bound; lia).
  subst moves b. unfold consulted in *.
  destruct (is_game_over (the_board w)) eqn:Hover.
  - destruct (insert_fails e) eqn:Hf.
    + destruct (getitem_in_range _ Hrange) as (mv & Hget & _ & Hin).
      exists mv. split; [intros w0; now apply randint_range|].
      split; [exact Hrange|]. split; [exact Hget|]. split; [exact Hin|].
      left. split; [reflexivity|]. split; [reflexivity|].
      now apply tick_storage_error.
    + destruct (@tick_finalizing R L e w Hover Hf) as (row & mv & _ & Hget & Hin & Hrun).
      exists mv. split; [intros w0; now apply randint_range|].
      split; [exact Hrange|]. split; [exact Hget|]. split; [exact Hin|].
      right. eexists. split; [exact Hrun | reflexivity].
  - destruct (@tick_running R e w Hover) as (mv & Hget & Hin & Hrun).
    exists mv. split; [intros w0; now apply randint_range|].
    split; [exact Hrange|]. split; [exact Hget|]. split; [exact Hin|].
    right. eexists. split; [exact Hrun | reflexivity].
Qed.

Lemma selected_move_is_legal_witness :
  legal_moves Book.rules (consulted (Book.mated [])) <> []
  /\ exists i mv,
       (forall w0 : World Book.rules,
          randint 0 (len (legal_moves Book.rules (consulted (Book.mated []))) - 1)
                  (Book.env 10 false) w0 = (Returned i, w0))
       /\ 0 <= i < len (legal_moves Book.rules (consulted (Book.mated [])))
       /\ getitem (legal_moves Book.rules (consulted (Book.mated []))) i = Returned mv
       /\ In mv (legal_moves Book.rules (consulted (Book.mated [])))
       /\ ((is_game_over (the_board (Book.mated [])) = true
            /\ insert_fails (Book.env 10 false) = true
            /\ play_chess (Book.env 10 false) (Book.mated []) =
                 (Raised StorageError, Book.mated []))
           \/ exists w', play_chess (Book.env 10 false) (Book.mated []) = (Returned tt, w')
                         /\ the_board w' = push (consulted (Book.mated [])) mv).
Proof.
  exact (@selected_move_is_legal Book.rules Book_lawful (Book.env 10 false)
           (Book.mated [])).
Defined.

(** ** C9: the move is chosen by the draw *)

(** A push shows the move that was pushed. *)
Lemma push_injective (R : Rules) (b : board R) (m m' : Move) :
  push b m = push b m' -> m = m'.
Proof.
  intros H. apply (f_equal (@move_stack _)) in H. cbn [push move_stack] in H.
  apply app_inv_head in H. now injection H.
Qed.

(** C9.  On a game that is not over, with [n] legal moves.  Whatever the
    random source yields, [randint(0, n - 1)] returns an index [r] in
    [0 .. n - 1] (the draw reduced modulo [n], so that the draws of every
    [n] consecutive values reach every index once), and the tick returns
    having played the move at index [r] of the list of legal moves.  And for
    every legal move there is one index [r] in that range such that a tick
    plays this move exactly when its index is [r]. *)
Theorem selection_by_index (R : Rules) (L : Lawful R) (w : World R) :
  is_game_over (the_board w) = false ->
  let moves := legal_moves R (the_board w) in
  (forall e,
     exists r mv w',
       (forall w0 : World R, randint 0 (len moves - 1) e w0 = (Returned r, w0))
       /\ r = entropy e mod len moves
       /\ 0 <= r < len moves
       /\ nth_error moves (Z.to_nat r) = Some mv
       /\ play_chess e w = (Returned tt, w')
       /\ the_board w' = push (the_board w) mv)
  /\ (forall mv, In mv moves ->
        exists r,
          0 <= r < len moves
          /\ nth_error moves (Z.to_nat r) = Some mv
          /\ forall e w',
               play_chess e w = (Returned tt, w') ->
               (the_board w' = push (the_board w) mv <-> entropy e mod len moves = r)).
Proof.
  intros Hover moves.
  assert (Hpos : 0 < len moves) by (apply len_pos, not_over_has_moves; exact Hover).
  assert (Htick : forall e,
            exists mv,
              nth_error moves (Z.to_nat (entropy e mod len moves)) = Some mv
              /\ play_chess e w =
                   (Returned tt,
                    mkWorld (push (the_board w) mv) (chess_game w)
                      (trace w ++ [Emitted (move (fen R (push (the_board w) mv)));
                                   TimerStarted (MOVE_INTERVAL_SEC e)]))).
  { intros e.
    destruct (@tick_running R e w Hover) as (mv & Hget & _ & Hrun).
    fold moves in Hget, Hrun.
    assert (Hr : 0 <= entropy e mod len moves < len moves)
      by (apply Z.mod_pos_bound; exact Hpos).
    destruct (getitem_in_range moves Hr) as (mv' & Hget' & Hnth & _).
    rewrite Hget in Hget'. injection Hget' as <-.
    exists mv. split; [exact Hnth | exact Hrun]. }
  split.
  - intros e. destruct (Htick e) as (mv & Hnth & Hrun).
    exists (entropy e mod len moves), mv. eexists.
    split; [intros w0; now apply randint_range|].
    split; [reflexivity|].
    split; [apply Z.mod_pos_bound; exact Hpos|].
    split; [exact Hnth|]. split; [exact Hrun | reflexivity].
  - intros mv Hin.
    destruct (In_nth_error _ _ Hin) as [k Hk].
    assert (Hlt : (k < List.length moves)%nat)
      by (apply nth_error_Some; rewrite Hk; discriminate).
    pose proof (legal_moves_nodup L (the_board w)) as Hnd. fold moves in Hnd.
    rewrite NoDup_nth_error in Hnd.
    exists (Z.of_nat k). rewrite Nat2Z.id.
    split; [unfold len; lia|]. split; [exact Hk|].
    intros e w' Hrun.
    destruct (Htick e) as (mv' & Hnth & Hrun').
    rewrite Hrun' in Hrun. injection Hrun as <-. cbn [the_board].
    assert (Hr : 0 <= entropy e mod len moves < len moves)
      by (apply Z.mod_pos_bound; exact Hpos).
    set (x := entropy e mod len moves) in *. clearbody x.
    split.
    + intros Hpush. apply push_injective in Hpush. subst mv'.
      assert (Heq : Z.to_nat x = k).
      { apply Hnd; [unfold len in Hr; lia | now rewrite Hnth, Hk]. }
      lia.
    + intros Hidx. rewrite Hidx, Nat2Z.id, Hk in Hnth. now injection Hnth as ->.
Qed.

Lemma selection_by_index_witness :
  let w := main_world Book.rules [] in
  let moves := legal_moves Book.rules (the_board w) in
  is_game_over (the_board w) = false
  /\ (forall e,
        exists r mv w',
          (forall w0 : World Book.rules,
             randint 0 (len moves - 1) e w0 = (Returned r, w0))
          /\ r = entropy e mod len moves
          /\ 0 <= r < len moves
          /\ nth_error moves (Z.to_nat r) = Some mv
          /\ play_chess e w = (Returned tt, w')
          /\ the_board w' = push (the_board w) mv)
  /\ (forall mv, In mv moves ->
        exists r,
          0 <= r < len moves
          /\ nth_error moves (Z.to_nat r) = Some mv
          /\ forall e w',
               play_chess e w = (Returned tt, w') ->
               (the_board w' = push (the_board w) mv <-> entropy e mod len moves = r)).
Proof.
  split; [reflexivity|].
  apply (@selection_by_index Book.rules Book_lawful (main_world Book.rules [])).
  reflexivity.
Defined.

(** ** C10: the statistics of an empty table *)

(** C10.  On an empty table [get_state] returns, and every counter is 0:
    the counts are 0 and the total of the moves is 0, not NULL. *)
Theorem empty_table_stats (R : Rules) (e : Env) (b : board R) (tr : list Effect) :
  get_state e (mkWorld b [] tr) = (Returned (mkStats 0 0 0 0 0), mkWorld b [] tr).
Proof. reflexivity. Qed.

(** ** C5: the winner and the draw flag of a record *)

(** A result of ["1-0"] is a win of White, one of ["0-1"] a win of Black. *)
Lemma result_decisive (R : Rules) (b : board R) :
  (result b = "1-0" -> won WHITE b) /\ (result b = "0-1" -> won BLACK b).
Proof.
  unfold result, won.
  destruct (is_checkmate R b).
  - destruct (turn b); split; intros H; try discriminate H; split; reflexivity.
  - destruct (is_seventyfive_moves R b || is_fivefold_repetition R b);
      [split; discriminate|].
    destruct (is_insufficient_material R b); [split; discriminate|].
    destruct (legal_moves R b); split; discriminate.
Qed.

(** A side that has won gives the result its score. *)
Lemma won_result (R : Rules) (b : board R) :
  (won WHITE b -> result b = "1-0") /\ (won BLACK b -> result b = "0-1").
Proof.
  unfold result, won. split; intros [-> ->]; reflexivity.
Qed.

(** C5.  The row written for a finished game has a draw flag of 0 or 1 and
    a null winner exactly when the flag is 1.  Its winner is ["white"]
    exactly when White has won and ["black"] exactly when Black has won,
    and the flag is 1 exactly when neither has: a game that a side has won
    is never stored as a draw, and a drawn game never with a winner. *)
Theorem winner_matches_outcome (R : Rules) (e : Env) (w : World R) :
  is_game_over (the_board w) = true ->
  insert_fails e = false ->
  exists row,
    record_result e w =
      (Returned tt,
       mkWorld (the_board w) (chess_game w ++ [row]) (trace w ++ [Inserted row]))
    /\ (db.is_draw row = 0 \/ db.is_draw row = 1)
    /\ (db.winner row = None <-> db.is_draw row = 1)
    /\ (db.winner row = Some "white" <-> won WHITE (the_board w))
    /\ (db.winner row = Some "black" <-> won BLACK (the_board w))
    /\ (db.is_draw row = 1 <->
        ~ won WHITE (the_board w) /\ ~ won BLACK (the_board w))
    /\ (db.is_draw row <> 1 ->
        (db.winner row = Some "white" /\ won WHITE (the_board w))
        \/ (db.winner row = Some "black" /\ won BLACK (the_board w))).
Proof.
  intros Hover Hf.
  destruct (@record_result_inserts R e w Hf) as (row & Hrec & _ & Hdraw & Hwin).
  exists row. split; [exact Hrec|].
  destruct (result_decisive (the_board w)) as [Hwhite Hblack].
  destruct (won_result (the_board w)) as [Hwhite' Hblack'].
  destruct (game_over_result _ Hover) as [Hres|[Hres|Hres]];
    rewrite Hres in Hdraw, Hwin; cbn in Hdraw, Hwin; rewrite Hdraw, Hwin.
  - assert (Hw : won WHITE (the_board w)) by auto.
    assert (Hb : ~ won BLACK (the_board w))
      by (intros H; apply Hblack' in H; rewrite Hres in H; discriminate H).
    split; [left; reflexivity|].
    split; [split; discriminate|].
    split; [split; auto|].
    split; [split; [discriminate | intros H; now contradiction Hb]|].
    split; [split; [discriminate | intros [H _]; now contradiction H]|].
    intros _. left. auto.
  - assert (Hb : won BLACK (the_board w)) by auto.
    assert (Hw : ~ won WHITE (the_board w))
      by (intros H; apply Hwhite' in H; rewrite Hres in H; discriminate H).
    split; [left; reflexivity|].
    split; [split; discriminate|].
    split; [split; [discriminate | intros H; now contradiction Hw]|].
    split; [split; auto|].
    split; [split; [discriminate | intros [_ H]; now contradiction H]|].
    intros _. right. auto.
  - assert (Hw : ~ won WHITE (the_board w))
      by (intros H; apply Hwhite' in H; rewrite Hres in H; discriminate H).
    assert (Hb : ~ won BLACK (the_board w))
      by (intros H; apply Hblack' in H; rewrite Hres in H; discriminate H).
    split; [right; reflexivity|].
    split; [split; reflexivity|].
    split; [split; [discriminate | intros H; now contradiction Hw]|].
    split; [split; [discriminate | intros H; now contradiction Hb]|].
    split; [split; auto|].
    intros H. now contradiction H.
Qed.

Lemma winner_matches_outcome_witness :
  exists row,
    record_result (Book.env 10 false) (Book.mated []) =
      (Returned tt,
       mkWorld (the_board (Book.mated [])) ([] ++ [row]) ([] ++ [Inserted row]))
    /\ (db.is_draw row = 0 \/ db.is_draw row = 1)
    /\ (db.winner row = None <-> db.is_draw row = 1)
    /\ (db.winner row = Some "white" <-> won WHITE (the_board (Book.mated [])))
    /\ (db.winner row = Some "black" <-> won BLACK (the_board (Book.mated [])))
    /\ (db.is_draw row = 1 <->
        ~ won WHITE (the_board (Book.mated [])) /\ ~ won BLACK (the_board (Book.mated [])))
    /\ (db.is_draw row <> 1 ->
        (db.winner row = Some "white" /\ won WHITE (the_board (Book.mated [])))
        \/ (db.winner row = Some "black" /\ won BLACK (the_board (Book.mated [])))).
Proof.
  apply (@winner_matches_outcome Book.rules (Book.env 10 false) (Book.mated []));
    reflexivity.
Defined.

(** ** C4: the counters add up *)

Lemma len_cons {A : Type} (x : A) (l : list A) : len (x :: l) = 1 + len l.
Proof. unfold len. cbn [List.length]. lia. Qed.

(** A row of the recorder is a draw without a winner, or a game that is
    not a draw with one of the two winners. *)
Lemma recorded_shape (R : Rules) (row : db.Row) :
  recorded R row ->
  (db.is_draw row = 1 /\ db.winner row = None)
  \/ (db.is_draw row = 0 /\ db.winner row = Some "white")
  \/ (db.is_draw row = 0 /\ db.winner row = Some "black").
Proof.
  intros (e & w & Hrec).
  destruct (insert_fails e) eqn:Hf.
  - rewrite (@record_result_raises R e w Hf) in Hrec. discriminate Hrec.
  - destruct (@record_result_inserts R e w Hf) as (row' & Hrec' & _ & Hdraw & Hwin).
    rewrite Hrec' in Hrec. injection Hrec as Hrows _.
    apply app_inv_head in Hrows. injection Hrows as ->.
    rewrite Hdraw, Hwin.
    destruct (String.eqb (result (the_board w)) "1/2-1/2"); [auto|].
    destruct (String.eqb (result (the_board w)) "1-0"); auto.
Qed.

(** Every row of the recorder is counted by exactly one of the three
    outcome queries. *)
Lemma outcome_counts_add_up (R : Rules) (t : db.Table) :
  Forall (recorded R) t ->
  len t = len (filter (db.winner_eq "white") t)
          + len (filter (db.winner_eq "black") t)
          + len (filter (db.is_draw_eq 1) t).
Proof.
  induction 1 as [|row t Hrow _ IH]; [reflexivity|].
  assert (Hcount :
    (if db.winner_eq "white" row then 1 else 0)
    + (if db.winner_eq "black" row then 1 else 0)
    + (if db.is_draw_eq 1 row then 1 else 0) = 1).
  { unfold db.winner_eq, db.is_draw_eq.
    destruct (recorded_shape Hrow) as [[Hd Hw]|[[Hd Hw]|[Hd Hw]]];
      rewrite Hd, Hw; reflexivity. }
  cbn [filter].
  destruct (db.winner_eq "white" row), (db.winner_eq "black" row),
    (db.is_draw_eq 1 row); rewrite !len_cons; lia.
Qed.

(** C4.  On a table of rows written by the recorder, [get_state] returns
    a dictionary in which [n_games] is the sum of [n_white_wins],
    [n_black_wins] and [n_draws]. *)
Theorem stats_sum_invariant (R : Rules) (t : db.Table) (e : Env) (b : board R)
    (tr : list Effect) :
  Forall (recorded R) t ->
  exists s,
    get_state e (mkWorld b t tr) = (Returned s, mkWorld b t tr)
    /\ n_games s = n_white_wins s + n_black_wins s + n_draws s.
Proof.
  intros Ht. exists (stats_of t). split; [apply get_state_returns|].
  cbn [stats_of n_games n_white_wins n_black_wins n_draws].
  exact (@outcome_counts_add_up R t Ht).
Qed.

(** The row of Fool's mate is a row of the recorder. *)
Lemma mate_row_recorded : recorded Book.rules Book.mate_row.
Proof. exists (Book.env 10 false), (Book.mated []). reflexivity. Qed.

Lemma stats_sum_invariant_witness :
  exists s,
    get_state (Book.env 0 false)
              (mkWorld (new_board Book.rules) [Book.mate_row; Book.mate_row] []) =
      (Returned s, mkWorld (new_board Book.rules) [Book.mate_row; Book.mate_row] [])
    /\ n_games s = n_white_wins s + n_black_wins s + n_draws s.
Proof.
  apply (@stats_sum_invariant Book.rules [Book.mate_row; Book.mate_row]).
  repeat constructor; exact mate_row_recorded.
Defined.

(** ** C8: the statistics sent with [game_over] *)

(** The count of a query grows by one with a row that the query selects,
    and not at all with another row. *)
Lemma count_snoc (p : db.Row -> bool) (t : db.Table) (row : db.Row) :
  len (filter p (t ++ [row])) = len (filter p t) + (if p row then 1 else 0).
Proof.
  rewrite filter_app, len_app. cbn [filter].
  destruct (p row); reflexivity.
Qed.

(** C8.  In a tick that finalizes a finished game, the INSERT of the row
    is the first effect and the [game_over] event the next one; the
    dictionary in the event is the one [get_state] computes on the table
    that holds the new row; against the dictionary of the table before the
    tick, [n_games] is greater by one, and so is the counter of the outcome
    of the game, the two other outcome counters being unchanged. *)
Theorem game_over_carries_new_stats (R : Rules) (L : Lawful R) (e : Env)
    (w : World R) :
  is_game_over (the_board w) = true ->
  insert_fails e = false ->
  exists row s0 s1 rest w',
    get_state e w = (Returned s0, w)
    /\ play_chess e w = (Returned tt, w')
    /\ chess_game w' = chess_game w ++ [row]
    /\ trace w' = trace w ++ Inserted row :: Emitted (game_over s1) :: rest
    /\ (forall (b : board R) tr,
          get_state e (mkWorld b (chess_game w ++ [row]) tr) =
            (Returned s1, mkWorld b (chess_game w ++ [row]) tr))
    /\ n_games s1 = n_games s0 + 1
    /\ ((result (the_board w) = "1-0"
         /\ n_white_wins s1 = n_white_wins s0 + 1
         /\ n_black_wins s1 = n_black_wins s0
         /\ n_draws s1 = n_draws s0)
        \/ (result (the_board w) = "0-1"
            /\ n_white_wins s1 = n_white_wins s0
            /\ n_black_wins s1 = n_black_wins s0 + 1
            /\ n_draws s1 = n_draws s0)
        \/ (result (the_board w) = "1/2-1/2"
            /\ n_white_wins s1 = n_white_wins s0
            /\ n_black_wins s1 = n_black_wins s0
            /\ n_draws s1 = n_draws s0 + 1)).
Proof.
  intros Hover Hf.
  destruct (@tick_finalizing R L e w Hover Hf) as (row & mv & Hrec & _ & _ & Hrun).
  destruct (@record_result_inserts R e w Hf) as (row' & Hrec' & _ & Hdraw & Hwin).
  rewrite Hrec in Hrec'. injection Hrec' as Hrows _.
  apply app_inv_head in Hrows. injection Hrows as <-.
  exists row, (stats_of (chess_game w)), (stats_of (chess_game w ++ [row])).
  eexists. eexists.
  split; [apply get_state_returns|]. split; [exact Hrun|].
  split; [reflexivity|]. split; [reflexivity|].
  split; [intros b tr; apply get_state_returns|].
  cbn [stats_of n_games n_white_wins n_black_wins n_draws].
  rewrite !count_snoc, len_app. split; [reflexivity|].
  unfold db.winner_eq, db.is_draw_eq. rewrite Hdraw, Hwin.
  destruct (game_over_result _ Hover) as [Hres|[Hres|Hres]]; rewrite Hres; cbn.
  - left. repeat split; lia.
  - right; left. repeat split; lia.
  - right; right. repeat split; lia.
Qed.

Lemma game_over_carries_new_stats_witness :
  exists row s0 s1 rest w',
    get_state (Book.env 10 false) (Book.mated []) = (Returned s0, Book.mated [])
    /\ play_chess (Book.env 10 false) (Book.mated []) = (Returned tt, w')
    /\ chess_game w' = [] ++ [row]
    /\ trace w' = [] ++ Inserted row :: Emitted (game_over s1) :: rest
    /\ (forall (b : board Book.rules) tr,
          get_state (Book.env 10 false) (mkWorld b ([] ++ [row]) tr) =
            (Returned s1, mkWorld b ([] ++ [row]) tr))
    /\ n_games s1 = n_games s0 + 1
    /\ ((result (the_board (Book.mated [])) = "1-0"
         /\ n_white_wins s1 = n_white_wins s0 + 1
         /\ n_black_wins s1 = n_black_wins s0
         /\ n_draws s1 = n_draws s0)
        \/ (result (the_board (Book.mated [])) = "0-1"
            /\ n_white_wins s1 = n_white_wins s0
            /\ n_black_wins s1 = n_black_wins s0 + 1
            /\ n_draws s1 = n_draws s0)
        \/ (result (the_board (Book.mated [])) = "1/2-1/2"
            /\ n_white_wins s1 = n_white_wins s0
            /\ n_black_wins s1 = n_black_wins s0
            /\ n_draws s1 = n_draws s0 + 1)).
Proof.
  apply (@game_over_carries_new_stats Book.rules Book_lawful (Book.env 10 false)
           (Book.mated []));
    reflexivity.
Defined.

(** * Further properties of the script *)

(** ** The trace of the loop *)

Lemma count_app (kind : Effect -> bool) (l l' : list Effect) :
  count kind (l ++ l') = count kind l + count kind l'.
Proof. unfold count. now rewrite filter_app, len_app. Qed.

Lemma count_nonneg (kind : Effect -> bool) (l : list Effect) : 0 <= count kind l.
Proof. apply len_nonneg. Qed.

Lemma inserted_rows_app (l l' : list Effect) :
  inserted_rows (l ++ l') = inserted_rows l ++ inserted_rows l'.
Proof.
  induction l as [|x l IH]; [reflexivity|].
  destruct x; cbn [app inserted_rows]; now rewrite IH.
Qed.

Lemma inserted_rows_count (l : list Effect) :
  len (inserted_rows l) = count is_insert l.
Proof.
  unfold count. induction l as [|x l IH]; [reflexivity|].
  destruct x; cbn [inserted_rows filter is_insert]; rewrite ?len_cons; lia.
Qed.

(** What one tick appends to the trace: nothing when it raises; else one
    [move] event and one timer, after the row and the [game_over] event of
    a finalization if there is one. *)
Lemma tick_trace (R : Rules) (L : Lawful R) (e : Env) (w : World R) :
  (is_game_over (the_board w) = true
   /\ insert_fails e = true
   /\ play_chess e w = (Raised StorageError, w))
  \/ exists w' l,
       play_chess e w = (Returned tt, w')
       /\ trace w' = trace w ++ l
       /\ chess_game w' = chess_game w ++ inserted_rows l
       /\ Forall (recorded R) (inserted_rows l)
       /\ count is_timer l = 1
       /\ count is_move_event l = 1
       /\ count is_game_over_event l = count is_insert l
       /\ count is_insert l <= 1.
Proof.
  destruct (is_game_over (the_board w)) eqn:Hover.
  - destruct (insert_fails e) eqn:Hf.
    + left. split; [reflexivity|]. split; [reflexivity|].
      now apply tick_storage_error.
    + right.
      destruct (@tick_finalizing R L e w Hover Hf) as (row & mv & Hrec & _ & _ & Hrun).
      eexists. eexists. split; [exact Hrun|].
      cbn [trace chess_game]. split; [reflexivity|].
      cbn [inserted_rows]. split; [reflexivity|].
      split; [repeat constructor; exists e, w; exact Hrec|].
      repeat split; try reflexivity.
  - right.
    destruct (@tick_running R e w Hover) as (mv & _ & _ & Hrun).
    eexists. eexists. split; [exact Hrun|].
    cbn [trace chess_game]. split; [reflexivity|].
    cbn [inserted_rows]. split; [now rewrite app_nil_r|].
    split; [constructor|].
    repeat split; try reflexivity. cbn. lia.
Qed.

(** *** When the store can refuse any call *)

(** [get_state] raises as soon as one of its queries is refused, and only
    reads. *)
Lemma faulty_get_state (R : Rules) (f : faulty.Refusals) (e : Env) (w : World R) :
  faulty.get_state f e w =
    if faulty.refuses_statistics f then (Raised StorageError, w)
    else (Returned (stats_of (chess_game w)), w).
Proof.
  destruct f as [q0 q1 q2 q3 q4 q5]. unfold faulty.refuses_statistics.
  cbn [faulty.games_query faulty.white_query faulty.black_query faulty.draws_query
       faulty.moves_query].
  destruct q1, q2, q3, q4, q5; reflexivity.
Qed.

(** [record_result] raises before it has written anything when the query
    of [configure_pgn] is refused; else it is the recorder of the first
    account. *)
Lemma faulty_record_result (R : Rules) (f : faulty.Refusals) (e : Env)
    (w : World R) :
  faulty.record_result f e w =
    if faulty.round_query f then (Raised StorageError, w) else record_result e w.
Proof. destruct f as [[|] q1 q2 q3 q4 q5]; reflexivity. Qed.

(** A tick, by what the store refuses. *)
Lemma faulty_tick (R : Rules) (f : faulty.Refusals) (e : Env) (w : World R) :
  faulty.play_chess f e w =
    if is_game_over (the_board w) then
      if faulty.round_query f || insert_fails e then (Raised StorageError, w)
      else if faulty.refuses_statistics f then
             (Raised StorageError, snd (record_result e w))
           else play_chess e w
    else play_chess e w.
Proof.
  destruct (is_game_over (the_board w)) eqn:Hover.
  - unfold faulty.play_chess, bind at 1, get_board at 1. rewrite Hover.
    unfold bind at 1, bind at 1. rewrite faulty_record_result.
    destruct (faulty.round_query f); [reflexivity|]. cbn [orb].
    destruct (insert_fails e) eqn:Hf.
    + rewrite (@record_result_raises R e w Hf). reflexivity.
    + destruct (@record_result_inserts R e w Hf) as (row & Hrec & _).
      rewrite Hrec. cbn [snd].
      unfold bind at 1. rewrite faulty_get_state.
      destruct (faulty.refuses_statistics f); [reflexivity|].
      symmetry. unfold play_chess, bind at 1, get_board at 1. rewrite Hover.
      unfold bind at 1, bind at 1. rewrite Hrec.
      unfold bind at 1. rewrite get_state_returns. reflexivity.
  - unfold faulty.play_chess, bind at 1, get_board at 1. rewrite Hover.
    symmetry. unfold play_chess, bind at 1, get_board at 1. rewrite Hover.
    reflexivity.
Qed.

(** What one tick appends to the trace, on such a store: when it returns,
    what a tick of the first account appends; when it raises, nothing, or
    the row whose [game_over] event the refused query has prevented. *)
Lemma faulty_tick_trace (R : Rules) (L : Lawful R) (f : faulty.Refusals)
    (e : Env) (w : World R) :
  exists o w' l,
    faulty.play_chess f e w = (o, w')
    /\ trace w' = trace w ++ l
    /\ chess_game w' = chess_game w ++ inserted_rows l
    /\ Forall (recorded R) (inserted_rows l)
    /\ count is_insert l <= 1
    /\ (faulty.refuses f e = false -> o = Returned tt)
    /\ (o = Returned tt
        /\ count is_timer l = 1
        /\ count is_move_event l = 1
        /\ count is_game_over_event l = count is_insert l
        \/ o = Raised StorageError
           /\ faulty.refuses f e = true
           /\ is_game_over (the_board w') = true
           /\ count is_timer l = 0
           /\ count is_move_event l = 0
           /\ count is_game_over_event l = 0).
Proof.
  rewrite faulty_tick. unfold faulty.refuses.
  assert (Hsame :
    (is_game_over (the_board w) = true -> insert_fails e = false) ->
    exists o w' l,
      play_chess e w = (o, w')
      /\ trace w' = trace w ++ l
      /\ chess_game w' = chess_game w ++ inserted_rows l
      /\ Forall (recorded R) (inserted_rows l)
      /\ count is_insert l <= 1
      /\ o = Returned tt
      /\ count is_timer l = 1
      /\ count is_move_event l = 1
      /\ count is_game_over_event l = count is_insert l).
  { intros Hok.
    destruct (tick_trace L e w)
      as [(Hover & Hf & _)|(w1 & l & Hrun & Htr & Htab & Hrec & Ht & Hm & Hg & Hi)].
    - rewrite (Hok Hover) in Hf. discriminate Hf.
    - exists (Returned tt), w1, l. auto 10. }
  destruct (is_game_over (the_board w)) eqn:Hover.
  - destruct (faulty.round_query f); cbn [orb].
    { exists (Raised StorageError), w, []. cbn [inserted_rows].
      rewrite !app_nil_r. repeat split; auto; try discriminate.
      right. repeat split; auto. }
    destruct (insert_fails e) eqn:Hf.
    { exists (Raised StorageError), w, []. cbn [inserted_rows].
      rewrite !app_nil_r. repeat split; auto; try discriminate.
      right. repeat split; auto. }
    destruct (faulty.refuses_statistics f).
    + destruct (@record_result_inserts R e w Hf) as (row & Hrec & _).
      rewrite Hrec. cbn [snd].
      exists (Raised StorageError). eexists. exists [Inserted row].
      cbn [trace chess_game the_board inserted_rows].
      split; [reflexivity|]. split; [reflexivity|]. split; [reflexivity|].
      split; [repeat constructor; exists e, w; exact Hrec|].
      split; [reflexivity|]. split; [discriminate|].
      right. repeat split; auto.
    + destruct Hsame as (o & w' & l & Hrun & Htr & Htab & Hrec & Hi & -> & Ht & Hm & Hg);
        [auto|].
      exists (Returned tt), w', l. repeat split; auto.
  - destruct Hsame as (o & w' & l & Hrun & Htr & Htab & Hrec & Hi & -> & Ht & Hm & Hg);
      [discriminate|].
    exists (Returned tt), w', l. repeat split; auto.
Qed.

(** What a run of the loop appends: [k] ticks return before the input is
    used up or a tick raises; they started [k] timers and emitted [k]
    [move] events; the table has grown by exactly the rows inserted; and
    every row inserted was announced by a [game_over] event, but for the one
    after which the run has stopped. *)
Lemma faulty_run_trace (R : Rules) (L : Lawful R)
    (inputs : list (faulty.Refusals * Env)) (w : World R) :
  exists o w' l k,
    faulty.run inputs w = (o, w')
    /\ trace w' = trace w ++ l
    /\ chess_game w' = chess_game w ++ inserted_rows l
    /\ Forall (recorded R) (inserted_rows l)
    /\ 0 <= k <= len inputs
    /\ count is_timer l = k
    /\ count is_move_event l = k
    /\ count is_game_over_event l <= count is_insert l <= count is_game_over_event l + 1
    /\ count is_insert l <= len inputs
    /\ (o = Returned tt /\ k = len inputs
        /\ count is_game_over_event l = count is_insert l
        \/ o = Raised StorageError /\ k < len inputs
           /\ count is_insert l <= k + 1
           /\ is_game_over (the_board w') = true
           /\ (exists f e, nth_error inputs (Z.to_nat k) = Some (f, e)
                           /\ faulty.refuses f e = true)).
Proof.
  revert w. induction inputs as [|[f e] inputs IH]; intros w.
  - exists (Returned tt), w, [], 0. cbn [faulty.run inserted_rows].
    rewrite !app_nil_r. repeat split; try reflexivity; try lia; auto.
    cbn. lia.
  - cbn [faulty.run]. rewrite len_cons. pose proof (len_nonneg inputs) as Hlen.
    destruct (faulty_tick_trace L f e w)
      as (o1 & w1 & l1 & Hrun & Htr & Htab & Hrec & Hins & _ & Hcase).
    rewrite Hrun.
    destruct Hcase as [(-> & Ht & Hm & Hg)|(-> & Href & Hover & Ht & Hm & Hg)].
    + destruct (IH w1)
        as (o & w' & l & k & Hrest & Htr' & Htab' & Hrec' & Hk & Ht' & Hm' & Hg' & Hi' & Ho).
      exists o, w', (l1 ++ l), (1 + k).
      split; [exact Hrest|].
      split; [rewrite Htr', Htr; now rewrite app_assoc|].
      split; [rewrite Htab', Htab, inserted_rows_app; now rewrite app_assoc|].
      split; [rewrite inserted_rows_app; apply Forall_app; now split|].
      rewrite !count_app.
      split; [lia|]. split; [lia|]. split; [lia|]. split; [lia|]. split; [lia|].
      destruct Ho as [(-> & -> & Heq)|(-> & Hlt & Hi'' & Hov & f' & e' & Hnth & Href)].
      * left. repeat split; lia.
      * right. split; [reflexivity|]. split; [lia|]. split; [lia|].
        split; [exact Hov|]. exists f', e'. split; [|exact Href].
        replace (Z.to_nat (1 + k)) with (S (Z.to_nat k)) by lia. exact Hnth.
    + exists (Raised StorageError), w1, l1, 0.
      split; [reflexivity|]. split; [exact Htr|]. split; [exact Htab|].
      split; [exact Hrec|].
      pose proof (count_nonneg is_insert l1).
      split; [lia|]. split; [exact Ht|]. split; [exact Hm|].
      split; [lia|]. split; [lia|].
      right. split; [reflexivity|]. split; [lia|]. split; [lia|].
      split; [exact Hover|]. exists f, e. split; [reflexivity | exact Href].
Qed.

(** X1.  The loop ends in one way only.  Whatever the inputs and whatever
    calls the store refuses, a run either uses the inputs up, or stops on
    the storage error of a tick that found a finished game on the board and
    in which the store refused a call: the SELECT of [configure_pgn], the
    INSERT, or a SELECT of [get_state].  That game is still on the board.
    No run ends on [ValueError], [IndexError] or [TypeError]. *)
Theorem loop_stops_only_on_storage_error (R : Rules) (L : Lawful R)
    (inputs : list (faulty.Refusals * Env)) (w : World R) :
  exists o w',
    faulty.run inputs w = (o, w')
    /\ (o = Returned tt
        \/ (o = Raised StorageError
            /\ is_game_over (the_board w') = true
            /\ exists f e, In (f, e) inputs /\ faulty.refuses f e = true)).
Proof.
  destruct (faulty_run_trace L inputs w)
    as (o & w' & l & k & Hrun & _ & _ & _ & _ & _ & _ & _ & _ & Ho).
  exists o, w'. split; [exact Hrun|].
  destruct Ho as [(-> & _)|(-> & _ & _ & Hover & f & e & Hnth & Href)];
    [left; reflexivity|].
  right. split; [reflexivity|]. split; [exact Hover|].
  exists f, e. split; [eapply nth_error_In; exact Hnth | exact Href].
Qed.

Lemma loop_stops_only_on_storage_error_witness :
  exists o w',
    faulty.run
      [(faulty.mkRefusals false false false true false false, Book.env 10 false);
       (faulty.mkRefusals false false false false false false, Book.env 0 false)]
      (Book.mated []) = (o, w')
    /\ (o = Returned tt
        \/ (o = Raised StorageError
            /\ is_game_over (the_board w') = true
            /\ exists f e,
                 In (f, e)
                    [(faulty.mkRefusals false false false true false false,
                      Book.env 10 false);
                     (faulty.mkRefusals false false false false false false,
                      Book.env 0 false)]
                 /\ faulty.refuses f e = true)).
Proof.
  exact (@loop_stops_only_on_storage_error Book.rules Book_lawful
           [(faulty.mkRefusals false false false true false false, Book.env 10 false);
            (faulty.mkRefusals false false false false false false, Book.env 0 false)]
           (Book.mated [])).
Defined.

(** X2.  While the store accepts every call, the INSERT and the six
    SELECTs of each tick, the loop goes on, one move and one timer at a
    time: a run over [n] inputs returns, and it has emitted exactly [n]
    [move] events and started exactly [n] timers. *)
Theorem loop_keeps_its_cadence (R : Rules) (L : Lawful R)
    (inputs : list (faulty.Refusals * Env)) (w : World R) :
  Forall (fun fe => faulty.refuses (fst fe) (snd fe) = false) inputs ->
  exists w' l,
    faulty.run inputs w = (Returned tt, w')
    /\ trace w' = trace w ++ l
    /\ count is_move_event l = len inputs
    /\ count is_timer l = len inputs.
Proof.
  intros Hok.
  destruct (faulty_run_trace L inputs w)
    as (o & w' & l & k & Hrun & Htr & _ & _ & _ & Ht & Hm & _ & _ & Ho).
  destruct Ho as [(-> & -> & _)|(_ & _ & _ & _ & f & e & Hnth & Href)].
  - exists w', l. auto.
  - apply nth_error_In in Hnth. rewrite Forall_forall in Hok.
    specialize (Hok (f, e) Hnth). cbn [fst snd] in Hok.
    rewrite Hok in Href. discriminate Href.
Qed.

Lemma loop_keeps_its_cadence_witness :
  exists w' l,
    faulty.run
      [(faulty.mkRefusals false false false false false false, Book.env 10 false);
       (faulty.mkRefusals false false false false false false, Book.env 9 false);
       (faulty.mkRefusals false false false false false false, Book.env 12 false);
       (faulty.mkRefusals false false false false false false, Book.env 28 false);
       (faulty.mkRefusals false false false false false false, Book.env 10 false)]
      (main_world Book.rules []) = (Returned tt, w')
    /\ trace w' = [] ++ l
    /\ count is_move_event l = 5
    /\ count is_timer l = 5.
Proof.
  apply (@loop_keeps_its_cadence Book.rules Book_lawful
           [(faulty.mkRefusals false false false false false false, Book.env 10 false);
            (faulty.mkRefusals false false false false false false, Book.env 9 false);
            (faulty.mkRefusals false false false false false false, Book.env 12 false);
            (faulty.mkRefusals false false false false false false, Book.env 28 false);
            (faulty.mkRefusals false false false false false false, Book.env 10 false)]
           (main_world Book.rules [])).
  repeat constructor.
Defined.

(** X3.  The table only grows.  After any run, whatever the store has
    refused, the table is the table before it followed by the rows the run
    inserted, in order; each of them was written by the recorder; there are
    no more of them than ticks.  Every row was announced by a [game_over]
    event, but for at most one: the row of the tick on which the run
    stopped, when the store refused a SELECT of [get_state] after the
    INSERT.  A run that returns has emitted as many [game_over] events as it
    has inserted rows. *)
Theorem table_is_append_only (R : Rules) (L : Lawful R)
    (inputs : list (faulty.Refusals * Env)) (w : World R) :
  exists o w' l,
    faulty.run inputs w = (o, w')
    /\ trace w' = trace w ++ l
    /\ chess_game w' = chess_game w ++ inserted_rows l
    /\ Forall (recorded R) (inserted_rows l)
    /\ len (inserted_rows l) <= len inputs
    /\ count is_game_over_event l <= len (inserted_rows l)
    /\ len (inserted_rows l) <= count is_game_over_event l + 1
    /\ (o = Returned tt -> count is_game_over_event l = len (inserted_rows l)).
Proof.
  destruct (faulty_run_trace L inputs w)
    as (o & w' & l & k & Hrun & Htr & Htab & Hrec & Hk & _ & _ & Hg & Hi & Ho).
  exists o, w', l. rewrite inserted_rows_count.
  split; [exact Hrun|]. split; [exact Htr|]. split; [exact Htab|].
  split; [exact Hrec|]. split; [exact Hi|]. split; [lia|]. split; [lia|].
  intros ->. destruct Ho as [(_ & _ & Heq)|(Hraised & _)];
    [exact Heq | discriminate Hraised].
Qed.

Lemma table_is_append_only_witness :
  exists o w' l,
    faulty.run
      [(faulty.mkRefusals false false false false false true, Book.env 10 false);
       (faulty.mkRefusals false false false false false false, Book.env 0 false)]
      (Book.mated [Book.mate_row]) = (o, w')
    /\ trace w' = [] ++ l
    /\ chess_game w' = [Book.mate_row] ++ inserted_rows l
    /\ Forall (recorded Book.rules) (inserted_rows l)
    /\ len (inserted_rows l) <= 2
    /\ count is_game_over_event l <= len (inserted_rows l)
    /\ len (inserted_rows l) <= count is_game_over_event l + 1
    /\ (o = Returned tt -> count is_game_over_event l = len (inserted_rows l)).
Proof.
  exact (@table_is_append_only Book.rules Book_lawful
           [(faulty.mkRefusals false false false false false true, Book.env 10 false);
            (faulty.mkRefusals false false false false false false, Book.env 0 false)]
           (Book.mated [Book.mate_row])).
Defined.

(** ** The statistics *)

Lemma index_returns (R : Rules) (e : Env) (w : World R) :
  index e w = (Returned (render_template "index.html" (stats_of (chess_game w))), w).
Proof. reflexivity. Qed.

(** X4.  The root page and the [game_over] events agree.  After a tick
    that returns, the page is rendered with the dictionary of the
    [game_over] event the tick emitted, if the game was over, and with the
    dictionary it was rendered with before the tick, if it was not: the
    statistics change on finalizing ticks only. *)
Theorem page_follows_game_over (R : Rules) (L : Lawful R) (e e' : Env)
    (w w' : World R) :
  play_chess e w = (Returned tt, w') ->
  exists s s' l,
    index e' w = (Returned (render_template "index.html" s), w)
    /\ index e' w' = (Returned (render_template "index.html" s'), w')
    /\ trace w' = trace w ++ l
    /\ if is_game_over (the_board w)
       then In (Emitted (game_over s')) l
       else s' = s /\ count is_game_over_event l = 0.
Proof.
  intros Hrun.
  exists (stats_of (chess_game w)), (stats_of (chess_game w')).
  destruct (is_game_over (the_board w)) eqn:Hover.
  - destruct (insert_fails e) eqn:Hf.
    + rewrite (@tick_storage_error R e w Hover Hf) in Hrun. discriminate Hrun.
    + destruct (@tick_finalizing R L e w Hover Hf) as (row & mv & _ & _ & _ & Hrun').
      rewrite Hrun' in Hrun. injection Hrun as <-.
      eexists. split; [apply index_returns|]. split; [apply index_returns|].
      split; [reflexivity|]. cbn. auto.
  - destruct (@tick_running R e w Hover) as (mv & _ & _ & Hrun').
    rewrite Hrun' in Hrun. injection Hrun as <-.
    eexists. split; [apply index_returns|]. split; [apply index_returns|].
    split; [reflexivity|]. split; reflexivity.
Qed.

Lemma page_follows_game_over_witness :
  exists s s' l,
    index (Book.env 0 false) (Book.mated []) =
      (Returned (render_template "index.html" s), Book.mated [])
    /\ index (Book.env 0 false)
             (mkWorld (played Book.rules ["f2f3"]) [Book.mate_row]
                [Inserted Book.mate_row; Emitted (game_over (mkStats 1 0 1 0 3));
                 Emitted (move "f2f3"); TimerStarted 1]) =
         (Returned (render_template "index.html" s'),
          mkWorld (played Book.rules ["f2f3"]) [Book.mate_row]
            [Inserted Book.mate_row; Emitted (game_over (mkStats 1 0 1 0 3));
             Emitted (move "f2f3"); TimerStarted 1])
    /\ [Inserted Book.mate_row; Emitted (game_over (mkStats 1 0 1 0 3));
        Emitted (move "f2f3"); TimerStarted 1] = [] ++ l
    /\ In (Emitted (game_over s')) l.
Proof.
  apply (@page_follows_game_over Book.rules Book_lawful (Book.env 10 false)
           (Book.env 0 false) (Book.mated [])).
  reflexivity.
Defined.




(** ** The rows of the loop *)

(** The row that [record_result] writes, column by column. *)
Lemma record_result_row (R : Rules) (e : Env) (w : World R) :
  insert_fails e = false ->
  let b := the_board w in
  let row :=
    db.mkRow (now_completed e)
             (if String.eqb (result b) "1/2-1/2" then 1 else 0)
             (fullmove_number b)
             (if String.eqb (result b) "1/2-1/2" then None
              else if String.eqb (result b) "1-0" then Some "white"
              else Some "black")
             (export_pgn R (pgn_headers (now_header e) (len (chess_game w) + 1)) b) in
  record_result e w =
    (Returned tt, mkWorld b (chess_game w ++ [row]) (trace w ++ [Inserted row])).
Proof.
  intros Hf b row. unfold record_result, insert_chess_game, bind, ask. cbn.
  rewrite Hf. subst row b. cbn.
  destruct (String.eqb (result (the_board w)) "1/2-1/2"); [reflexivity|].
  destruct (String.eqb (result (the_board w)) "1-0"); reflexivity.
Qed.

Lemma sum_app (l l' : list Z) :
  fold_right Z.add 0 (l ++ l') = fold_right Z.add 0 l + fold_right Z.add 0 l'.
Proof. induction l as [|x l IH]; cbn [app fold_right]; lia. Qed.

Lemma total_moves_app (t t' : db.Table) :
  n_moves (stats_of (t ++ t')) =
  n_moves (stats_of t) + fold_right Z.add 0 (map db.n_moves t').
Proof. cbn [stats_of n_moves]. now rewrite map_app, sum_app. Qed.

Lemma sum_nonneg (t : db.Table) :
  Forall (fun row => 1 <= db.n_moves row) t ->
  0 <= fold_right Z.add 0 (map db.n_moves t).
Proof. induction 1; cbn [map fold_right]; lia. Qed.

(** In a loop that starts on a game played from the start, every row
    inserted has a positive move count. *)
Lemma run_move_counts (R : Rules) (L : Lawful R) (envs : list Env) (w : World R) :
  (exists ms, the_board w = played R ms) ->
  exists o w' rows,
    run envs w = (o, w')
    /\ chess_game w' = chess_game w ++ rows
    /\ Forall (fun row => 1 <= db.n_moves row) rows.
Proof.
  revert w. induction envs as [|e envs IH]; intros w Hplayed.
  - exists (Returned tt), w, []. cbn [run]. rewrite app_nil_r. auto.
  - cbn [run].
    assert (Hnext : forall w1 mv, the_board w1 = push (consulted w) mv ->
                                  exists ms, the_board w1 = played R ms).
    { intros w1 mv Hb. destruct (@consulted_played R w Hplayed) as [ms Hms].
      exists (ms ++ [mv]). rewrite played_snoc, <- Hms. exact Hb. }
    destruct (is_game_over (the_board w)) eqn:Hover.
    + destruct (insert_fails e) eqn:Hf.
      * rewrite (@tick_storage_error R e w Hover Hf).
        exists (Raised StorageError), w, []. rewrite app_nil_r. auto.
      * destruct (@tick_finalizing R L e w Hover Hf) as (row & mv & Hrec & _ & _ & Hrun).
        rewrite (@record_result_row R e w Hf) in Hrec.
        injection Hrec as Hrows _. apply app_inv_head in Hrows.
        rewrite Hrun.
        match goal with |- context [run envs ?w1] =>
          destruct (IH w1) as (o & w' & rows & Hrest & Htab & Hpos)
        end.
        { apply (Hnext _ mv). unfold consulted. rewrite Hover. reflexivity. }
        exists o, w', (row :: rows). split; [exact Hrest|].
        split; [rewrite Htab; cbn [chess_game]; now rewrite <- app_assoc|].
        constructor; [|exact Hpos].
        injection Hrows as <-. cbn [db.n_moves].
        destruct Hplayed as [ms ->].
        destruct (played_counters R ms) as [-> _].
        pose proof (len_nonneg ms). Z.div_mod_to_equations. lia.
    + destruct (@tick_running R e w Hover) as (mv & _ & _ & Hrun).
      rewrite Hrun.
      match goal with |- context [run envs ?w1] =>
        destruct (IH w1) as (o & w' & rows & Hrest & Htab & Hpos)
      end.
      { apply (Hnext _ mv). unfold consulted. rewrite Hover. reflexivity. }
      exists o, w', rows. auto.
Qed.

(** X6.  No counter ever goes down.  In a loop that starts on a game
    played from the start, each of the five counters of [get_state] after
    the run is at least what it was before the run. *)
Theorem counters_never_decrease (R : Rules) (L : Lawful R) (envs : list Env)
    (e : Env) (ms : list Move) (t : db.Table) (tr : list Effect) :
  exists o w' s s',
    run envs (mkWorld (played R ms) t tr) = (o, w')
    /\ get_state e (mkWorld (played R ms) t tr) = (Returned s, mkWorld (played R ms) t tr)
    /\ get_state e w' = (Returned s', w')
    /\ n_games s <= n_games s'
    /\ n_white_wins s <= n_white_wins s'
    /\ n_black_wins s <= n_black_wins s'
    /\ n_draws s <= n_draws s'
    /\ n_moves s <= n_moves s'.
Proof.
  destruct (@run_move_counts R L envs (mkWorld (played R ms) t tr))
    as (o & w' & rows & Hrun & Htab & Hpos); [exists ms; reflexivity|].
  cbn [chess_game] in Htab.
  exists o, w', (stats_of t), (stats_of (chess_game w')).
  split; [exact Hrun|]. split; [apply get_state_returns|].
  split; [apply get_state_returns|].
  rewrite Htab, total_moves_app.
  cbn [stats_of n_games n_white_wins n_black_wins n_draws].
  rewrite !filter_app, !len_app.
  pose proof (len_nonneg rows).
  pose proof (len_nonneg (filter (db.winner_eq "white") rows)).
  pose proof (len_nonneg (filter (db.winner_eq "black") rows)).
  pose proof (len_nonneg (filter (db.is_draw_eq 1) rows)).
  pose proof (sum_nonneg Hpos).
  repeat split; lia.
Qed.

Lemma counters_never_decrease_witness :
  exists o w' s s',
    run [Book.env 10 false; Book.env 0 false]
        (mkWorld (played Book.rules Book.fools_mate) [Book.mate_row] []) = (o, w')
    /\ get_state (Book.env 0 false)
                 (mkWorld (played Book.rules Book.fools_mate) [Book.mate_row] []) =
         (Returned s, mkWorld (played Book.rules Book.fools_mate) [Book.mate_row] [])
    /\ get_state (Book.env 0 false) w' = (Returned s', w')
    /\ n_games s <= n_games s'
    /\ n_white_wins s <= n_white_wins s'
    /\ n_black_wins s <= n_black_wins s'
    /\ n_draws s <= n_draws s'
    /\ n_moves s <= n_moves s'.
Proof.
  exact (@counters_never_decrease Book.rules Book_lawful
           [Book.env 10 false; Book.env 0 false] (Book.env 0 false)
           Book.fools_mate [Book.mate_row] []).
Defined.

(** X7.  The fifth counter.  On a table whose move counts are not
    negative, and as long as the new total does not exceed 2^53 (the range
    in which the floating-point total of sqlite3 is the exact sum), the
    dictionary sent with [game_over] has the total of the moves of the
    table before the tick, plus the full-move number of the board that was
    finalized. *)
Theorem total_moves_grow_by_fullmove_number (R : Rules) (L : Lawful R) (e : Env)
    (w : World R) :
  is_game_over (the_board w) = true ->
  insert_fails e = false ->
  forallb (fun row => 0 <=? db.n_moves row) (chess_game w) = true ->
  0 <= fullmove_number (the_board w) ->
  fold_right Z.add 0 (map db.n_moves (chess_game w)) + fullmove_number (the_board w)
    <= 2 ^ 53 ->
  exists s0 s1 w' l,
    get_state e w = (Returned s0, w)
    /\ play_chess e w = (Returned tt, w')
    /\ trace w' = trace w ++ l
    /\ In (Emitted (game_over s1)) l
    /\ n_moves s1 = n_moves s0 + fullmove_number (the_board w)
    /\ 0 <= n_moves s0 <= n_moves s1
    /\ n_moves s1 <= 2 ^ 53.
Proof.
  intros Hover Hf Hrows Hfull Hbound.
  destruct (@tick_finalizing R L e w Hover Hf) as (row & mv & Hrec & _ & _ & Hrun).
  rewrite (@record_result_row R e w Hf) in Hrec.
  injection Hrec as Hrows' _. apply app_inv_head in Hrows'. injection Hrows' as <-.
  exists (stats_of (chess_game w)). eexists. eexists. eexists.
  split; [apply get_state_returns|]. split; [exact Hrun|].
  split; [reflexivity|]. split; [cbn; auto|].
  rewrite total_moves_app. cbn [map fold_right db.n_moves stats_of n_moves].
  assert (Hnonneg : 0 <= fold_right Z.add 0 (map db.n_moves (chess_game w))).
  { clear - Hrows. induction (chess_game w) as [|row t IH]; [reflexivity|].
    cbn [forallb] in Hrows. apply andb_prop in Hrows. destruct Hrows as [Hrow Ht].
    apply Z.leb_le in Hrow. specialize (IH Ht). cbn [map fold_right]. lia. }
  lia.
Qed.

Lemma total_moves_grow_by_fullmove_number_witness :
  exists s0 s1 w' l,
    get_state (Book.env 10 false) (Book.mated [Book.mate_row]) =
      (Returned s0, Book.mated [Book.mate_row])
    /\ play_chess (Book.env 10 false) (Book.mated [Book.mate_row]) = (Returned tt, w')
    /\ trace w' = [] ++ l
    /\ In (Emitted (game_over s1)) l
    /\ n_moves s1 = n_moves s0 + fullmove_number (the_board (Book.mated [Book.mate_row]))
    /\ 0 <= n_moves s0 <= n_moves s1
    /\ n_moves s1 <= 2 ^ 53.
Proof.
  apply (@total_moves_grow_by_fullmove_number Book.rules Book_lawful
           (Book.env 10 false) (Book.mated [Book.mate_row]));
    first [reflexivity | vm_compute; discriminate].
Defined.

(** The rows a run inserts, with the round each was exported with. *)
Lemma run_rounds (R : Rules) (L : Lawful R) (envs : list Env) (w : World R) :
  exists o w' rows,
    run envs w = (o, w')
    /\ chess_game w' = chess_game w ++ rows
    /\ forall j row,
         nth_error rows j = Some row ->
         exists e b,
           In e envs
           /\ is_game_over b = true
           /\ db.completion_date row = now_completed e
           /\ db.pgn row =
                export_pgn R
                  (pgn_headers (now_header e) (len (chess_game w) + Z.of_nat j + 1)) b.
Proof.
  revert w. induction envs as [|e envs IH]; intros w.
  - exists (Returned tt), w, []. cbn [run]. rewrite app_nil_r.
    split; [reflexivity|]. split; [reflexivity|].
    intros [|j] row H; discriminate H.
  - cbn [run].
    destruct (is_game_over (the_board w)) eqn:Hover.
    + destruct (insert_fails e) eqn:Hf.
      * rewrite (@tick_storage_error R e w Hover Hf).
        exists (Raised StorageError), w, []. rewrite app_nil_r.
        split; [reflexivity|]. split; [reflexivity|].
        intros [|j] row H; discriminate H.
      * destruct (@tick_finalizing R L e w Hover Hf) as (row & mv & Hrec & _ & _ & Hrun).
        rewrite (@record_result_row R e w Hf) in Hrec.
        injection Hrec as Hrows _. apply app_inv_head in Hrows.
        rewrite Hrun.
        match goal with |- context [run envs ?w1] =>
          destruct (IH w1) as (o & w' & rows & Hrest & Htab & Hrows')
        end.
        cbn [chess_game] in Htab, Hrows'.
        exists o, w', (row :: rows). split; [exact Hrest|].
        split; [rewrite Htab; now rewrite <- app_assoc|].
        intros [|j] row' Hnth; cbn [nth_error] in Hnth.
        -- injection Hnth as <-. injection Hrows as <-.
           exists e, (the_board w). cbn [db.completion_date db.pgn].
           split; [left; reflexivity|]. split; [exact Hover|].
           split; [reflexivity|]. now rewrite Z.add_0_r.
        -- destruct (Hrows' j row' Hnth) as (e' & b & Hin & Hb & Hdate & Hpgn).
           exists e', b. split; [right; exact Hin|]. split; [exact Hb|].
           split; [exact Hdate|]. rewrite Hpgn, len_app. change (len [row]) with 1.
           do 3 f_equal. lia.
    + destruct (@tick_running R e w Hover) as (mv & _ & _ & Hrun).
      rewrite Hrun.
      match goal with |- context [run envs ?w1] =>
        destruct (IH w1) as (o & w' & rows & Hrest & Htab & Hrows')
      end.
      cbn [chess_game] in Htab, Hrows'.
      exists o, w', rows. split; [exact Hrest|]. split; [exact Htab|].
      intros j row Hnth.
      destruct (Hrows' j row Hnth) as (e' & b & Hin & Hb & Hdate & Hpgn).
      exists e', b. split; [right; exact Hin | auto].
Qed.

(** X8.  The rounds number the games.  In a loop that starts on an empty
    table, the row at index [i] of the table holds the transcript of a
    finished game, exported with the headers of [configure_pgn] and the
    round [i + 1], and its completion date is a clock reading of the
    run. *)
Theorem rounds_number_the_games (R : Rules) (L : Lawful R) (envs : list Env)
    (b0 : board R) (tr : list Effect) :
  exists o w',
    run envs (mkWorld b0 [] tr) = (o, w')
    /\ forall i row,
         nth_error (chess_game w') i = Some row ->
         exists e b,
           In e envs
           /\ is_game_over b = true
           /\ db.completion_date row = now_completed e
           /\ db.pgn row =
                export_pgn R (pgn_headers (now_header e) (Z.of_nat i + 1)) b.
Proof.
  destruct (run_rounds L envs (mkWorld b0 [] tr)) as (o & w' & rows & Hrun & Htab & Hrows).
  exists o, w'. split; [exact Hrun|].
  cbn [chess_game app] in Htab, Hrows. rewrite Htab. exact Hrows.
Qed.

Lemma rounds_number_the_games_witness :
  exists o w',
    run [Book.env 10 false; Book.env 0 false; Book.env 0 false]
        (mkWorld (played Book.rules Book.fools_mate) [] []) = (o, w')
    /\ forall i row,
         nth_error (chess_game w') i = Some row ->
         exists e b,
           In e [Book.env 10 false; Book.env 0 false; Book.env 0 false]
           /\ is_game_over b = true
           /\ db.completion_date row = now_completed e
           /\ db.pgn row =
                export_pgn Book.rules
                  (pgn_headers (now_header e) (Z.of_nat i + 1)) b.
Proof.
  exact (@rounds_number_the_games Book.rules Book_lawful
           [Book.env 10 false; Book.env 0 false; Book.env 0 false]
           (played Book.rules Book.fools_mate) []).
Defined.

(** ** The recorder, outside the games it is called on *)

(** X9.  [record_result] does not ask whether the game is over, and takes
    every result that is neither ["1-0"] nor ["1/2-1/2"] for a win of
    Black: called on a board whose result is ["*"], it writes a row with
    [is_draw = 0] and the winner ["black"]. *)
Theorem undecided_game_recorded_as_black_win (R : Rules) (e : Env) (w : World R) :
  insert_fails e = false ->
  String.eqb (result (the_board w)) "1-0" = false ->
  String.eqb (result (the_board w)) "1/2-1/2" = false ->
  exists row,
    record_result e w =
      (Returned tt,
       mkWorld (the_board w) (chess_game w ++ [row]) (trace w ++ [Inserted row]))
    /\ db.is_draw row = 0
    /\ db.winner row = Some "black".
Proof.
  intros Hf Hwhite Hdraw.
  pose proof (@record_result_row R e w Hf) as Hrec. cbv zeta in Hrec.
  rewrite Hwhite, Hdraw in Hrec.
  eexists. split; [exact Hrec|]. split; reflexivity.
Qed.

Lemma undecided_game_recorded_as_black_win_witness :
  result (the_board (main_world Book.rules [])) = "*"
  /\ exists row,
       record_result (Book.env 0 false) (main_world Book.rules []) =
         (Returned tt,
          mkWorld (the_board (main_world Book.rules [])) ([] ++ [row])
                  ([] ++ [Inserted row]))
       /\ db.is_draw row = 0
       /\ db.winner row = Some "black".
Proof.
  split; [reflexivity|].
  apply (@undecided_game_recorded_as_black_win Book.rules (Book.env 0 false)
           (main_world Book.rules []));
    reflexivity.
Defined.

(** X10.  What the move count counts depends on who won.  For a finished
    game of [p] plies played from the starting position, the row of a win
    of White has [2 * n_moves = p + 1] (the moves White made), and the row
    of a win of Black has [2 * n_moves = p + 2] (one more than the moves
    Black made). *)
Theorem move_count_by_winner (R : Rules) (e : Env) (ms : list Move)
    (t : db.Table) (tr : list Effect) :
  insert_fails e = false ->
  is_game_over (played R ms) = true ->
  exists row,
    record_result e (mkWorld (played R ms) t tr) =
      (Returned tt, mkWorld (played R ms) (t ++ [row]) (tr ++ [Inserted row]))
    /\ (db.winner row = Some "white" -> 2 * db.n_moves row = len ms + 1)
    /\ (db.winner row = Some "black" -> 2 * db.n_moves row = len ms + 2).
Proof.
  intros Hf Hover.
  pose proof (@record_result_row R e (mkWorld (played R ms) t tr) Hf) as Hrec.
  cbv zeta in Hrec. cbn [the_board chess_game trace] in Hrec.
  eexists. split; [exact Hrec|]. cbn [db.winner db.n_moves].
  destruct (played_counters R ms) as [Hn Ht].
  destruct (result_decisive (played R ms)) as [Hwhite Hblack].
  pose proof (len_nonneg ms) as Hlen.
  assert (Hparity : forall c, won c (played R ms) ->
            Z.even (len ms) = match c with WHITE => false | BLACK => true end).
  { intros c [_ Hturn]. rewrite Ht in Hturn.
    destruct c, (Z.even (len ms)); cbn in Hturn; congruence. }
  rewrite Hn.
  destruct (game_over_result _ Hover) as [Hres|[Hres|Hres]]; rewrite Hres;
    cbn -[Z.mul Z.add Z.div len];
    split; intros Hw; try discriminate Hw.
  - specialize (Hparity WHITE (Hwhite Hres)).
    assert (Hodd : Z.odd (len ms) = true) by (rewrite <- Z.negb_even, Hparity; reflexivity).
    apply Z.odd_spec in Hodd. destruct Hodd as [k Hk]. rewrite Hk.
    Z.div_mod_to_equations. lia.
  - specialize (Hparity BLACK (Hblack Hres)).
    apply Z.even_spec in Hparity. destruct Hparity as [k Hk]. rewrite Hk.
    Z.div_mod_to_equations. lia.
Qed.

Lemma move_count_by_winner_witness :
  exists row,
    record_result (Book.env 0 false) (Book.mated []) =
      (Returned tt,
       mkWorld (played Book.rules Book.fools_mate) ([] ++ [row]) ([] ++ [Inserted row]))
    /\ (db.winner row = Some "white" -> 2 * db.n_moves row = len Book.fools_mate + 1)
    /\ (db.winner row = Some "black" -> 2 * db.n_moves row = len Book.fools_mate + 2).
Proof.
  apply (@move_count_by_winner Book.rules (Book.env 0 false) Book.fools_mate [] []);
    reflexivity.
Defined.

(** * The connections *)

Lemma opened_app (l l' : list conn.Call) :
  conn.opened (l ++ l') = (conn.opened l + conn.opened l')%nat.
Proof. unfold conn.opened. now rewrite filter_app, length_app. Qed.

(** A statement that only computes opens nothing. *)
Lemma leaves_open_pure {A : Type} (r : conn.error + A) :
  conn.leaves_open 0 (fun s => (r, s)).
Proof.
  intros s. exists r, []. rewrite app_nil_r. destruct s. repeat split; auto.
Qed.

Lemma leaves_open_bind {A B : Type} (n m : nat) (c : conn.S A) (k : A -> conn.S B) :
  conn.leaves_open n c ->
  (forall a, conn.leaves_open m (k a)) ->
  conn.leaves_open (n + m) (conn.bind c k).
Proof.
  intros Hc Hk s.
  destruct (Hc s) as (r & new & Hrun & Hclose & Hle & Hex).
  unfold conn.bind. rewrite Hrun. destruct r as [x|a].
  - exists (inl x), new. repeat split; auto; [lia | discriminate].
  - destruct (Hk a (conn.mkServer (conn.contexts s) (conn.calls s ++ new)))
      as (r' & new' & Hrun' & Hclose' & Hle' & Hex').
    cbn [conn.contexts conn.calls] in Hrun'.
    exists r', (new ++ new'). rewrite app_assoc. split; [exact Hrun'|].
    rewrite filter_app, Hclose, Hclose', opened_app.
    split; [reflexivity|]. split; [lia|].
    intros b Hb. rewrite (Hex a eq_refl), (Hex' b Hb). reflexivity.
Qed.

Lemma leaves_open_app_context {A : Type} (n : nat) (c : conn.S A) :
  conn.leaves_open n c -> conn.leaves_open n (conn.app_context c).
Proof.
  intros Hc s.
  destruct (Hc (conn.mkServer (None :: conn.contexts s) (conn.calls s)))
    as (r & new & Hrun & Hrest).
  cbn [conn.contexts conn.calls] in Hrun.
  exists r, new. unfold conn.app_context. rewrite Hrun. cbn. auto.
Qed.

(** [query_db] opens one connection and closes none, on every path. *)
Lemma query_db_leaves_open (refused : conn.Call -> bool)
    (cursor : list conn.Call -> string -> list conn.arg -> conn.Rows)
    (query : string) (args : list conn.arg) (one : bool) :
  conn.leaves_open 1 (conn.query_db refused cursor query args one).
Proof.
  intros s. destruct s as [gs cs].
  unfold conn.query_db, conn.app_context, conn.bind, conn.get_db, conn.getattr_g_db,
    conn.connect_db, conn.setattr_g_db, conn.execute_query, conn.bind, conn.call,
    conn.ret.
  cbn [conn.contexts conn.calls].
  destruct (refused (conn.connect (conn.opened cs))) eqn:Hc; cbn.
  { exists (inl conn.sqlite3_Error), []. rewrite app_nil_r.
    repeat split; auto; try discriminate. }
  destruct (refused (conn.execute (conn.opened cs) query args)) eqn:He; cbn.
  { exists (inl conn.sqlite3_Error), [conn.connect (conn.opened cs)].
    repeat split; auto; try discriminate. }
  destruct (refused (conn.fetchall (conn.opened cs))) eqn:Hfe; cbn.
  { exists (inl conn.sqlite3_Error),
      [conn.connect (conn.opened cs); conn.execute (conn.opened cs) query args].
    rewrite <- app_assoc. repeat split; auto; try discriminate. }
  eexists. exists [conn.connect (conn.opened cs); conn.execute (conn.opened cs) query args;
                   conn.fetchall (conn.opened cs)].
  rewrite <- !app_assoc. repeat split; auto.
Qed.

(** So does [exec_db]. *)
Lemma exec_db_leaves_open (refused : conn.Call -> bool) (query : string)
    (args : list conn.arg) :
  conn.leaves_open 1 (conn.exec_db refused query args).
Proof.
  intros s. destruct s as [gs cs].
  unfold conn.exec_db, conn.app_context, conn.bind, conn.get_db, conn.getattr_g_db,
    conn.connect_db, conn.setattr_g_db, conn.bind, conn.call, conn.ret.
  cbn [conn.contexts conn.calls].
  destruct (refused (conn.connect (conn.opened cs))) eqn:Hc; cbn.
  { exists (inl conn.sqlite3_Error), []. rewrite app_nil_r.
    repeat split; auto; try discriminate. }
  destruct (refused (conn.execute (conn.opened cs) query args)) eqn:He; cbn.
  { exists (inl conn.sqlite3_Error), [conn.connect (conn.opened cs)].
    repeat split; auto; try discriminate. }
  destruct (refused (conn.commit (conn.opened cs))) eqn:Hco; cbn.
  { exists (inl conn.sqlite3_Error),
      [conn.connect (conn.opened cs); conn.execute (conn.opened cs) query args].
    rewrite <- app_assoc. repeat split; auto; try discriminate. }
  eexists. exists [conn.connect (conn.opened cs); conn.execute (conn.opened cs) query args;
                   conn.commit (conn.opened cs)].
  rewrite <- !app_assoc. repeat split; auto.
Qed.

(** The five queries of the statistics have the same shape. *)
Lemma getter_leaves_open (refused : conn.Call -> bool)
    (cursor : list conn.Call -> string -> list conn.arg -> conn.Rows)
    (query : string) :
  conn.leaves_open 1
    (conn.app_context
       (conn.bind (conn.query_db refused cursor query [] true)
          (fun x => conn.bind (conn.first x) (fun result => conn.int result)))).
Proof.
  apply leaves_open_app_context.
  change 1%nat with (1 + (0 + 0))%nat.
  apply leaves_open_bind; [apply query_db_leaves_open|].
  intros x. apply leaves_open_bind.
  - destruct x as [[|r rs]|[|v r]|]; apply leaves_open_pure.
  - intros v. destruct v; apply leaves_open_pure.
Qed.

(** X11.  The statistics cost five connections.  On every path, whatever
    sqlite3 refuses and whatever the queries answer, [get_state] leaves the
    stack of application contexts as it found it and closes no connection;
    it opens at most five, one for each query, and exactly five when it
    returns. *)
Theorem get_state_opens_five_connections (refused : conn.Call -> bool)
    (cursor : list conn.Call -> string -> list conn.arg -> conn.Rows) :
  conn.leaves_open 5 (conn.get_state refused cursor).
Proof.
  unfold conn.get_state.
  change 5%nat with (1 + (1 + (1 + (1 + (1 + 0)))))%nat.
  repeat (apply leaves_open_bind; [apply getter_leaves_open | intros ?]).
  apply leaves_open_pure.
Qed.

(** X12.  [exec_db] commits on the connection it executed on.  Whatever
    the stack of application contexts holds, also a connection that
    [before_request] has opened, [exec_db] opens the next connection, and
    executes the statement and commits on that one; it does not close it.
    If the statement is refused nothing is committed, and if the commit is
    refused the statement stays uncommitted; in each case sqlite3.Error is
    raised and the stack of contexts is as before. *)
Theorem exec_db_commits_on_its_connection (refused : conn.Call -> bool)
    (query : string) (args : list conn.arg) (s : conn.Server) :
  let db := conn.opened (conn.calls s) in
  refused (conn.connect db) = false ->
  (refused (conn.execute db query args) = false ->
   refused (conn.commit db) = false ->
   conn.exec_db refused query args s =
     (inr tt,
      conn.mkServer (conn.contexts s)
        (conn.calls s ++ [conn.connect db; conn.execute db query args; conn.commit db])))
  /\ (refused (conn.execute db query args) = true ->
      conn.exec_db refused query args s =
        (inl conn.sqlite3_Error,
         conn.mkServer (conn.contexts s) (conn.calls s ++ [conn.connect db])))
  /\ (refused (conn.execute db query args) = false ->
      refused (conn.commit db) = true ->
      conn.exec_db refused query args s =
        (inl conn.sqlite3_Error,
         conn.mkServer (conn.contexts s)
           (conn.calls s ++ [conn.connect db; conn.execute db query args]))).
Proof.
  intros db Hc. subst db. destruct s as [gs cs]. cbn [conn.contexts conn.calls] in *.
  unfold conn.exec_db, conn.app_context, conn.bind, conn.get_db, conn.getattr_g_db,
    conn.connect_db, conn.setattr_g_db, conn.bind, conn.call, conn.ret.
  cbn [conn.contexts conn.calls]. rewrite Hc. cbn.
  split; [|split].
  - intros He Hco. rewrite He. cbn. rewrite Hco. cbn.
    now rewrite <- !app_assoc.
  - intros He. rewrite He. reflexivity.
  - intros He Hco. rewrite He. cbn. rewrite Hco. cbn.
    now rewrite <- !app_assoc.
Qed.

Lemma exec_db_commits_on_its_connection_witness :
  conn.exec_db (fun _ => false) "INSERT" [conn.Integer 1]
    (conn.mkServer [Some 0%nat] [conn.connect 0%nat]) =
    (inr tt,
     conn.mkServer [Some 0%nat]
       ([conn.connect 0%nat]
        ++ [conn.connect 1%nat; conn.execute 1%nat "INSERT" [conn.Integer 1];
            conn.commit 1%nat])).
Proof.
  apply (@exec_db_commits_on_its_connection (fun _ => false) "INSERT" [conn.Integer 1]
           (conn.mkServer [Some 0%nat] [conn.connect 0%nat]));
    reflexivity.
Defined.

(** X13.  [query_db] uses a connection of its own.  Whatever the stack of
    application contexts holds, when sqlite3 accepts its calls [query_db]
    opens the next connection, executes the query and fetches the rows on
    it, does not close it, and leaves the stack as it found it.  It returns
    all the rows; or with [one] the first row, and [None] when the query
    selects no row. *)
Theorem query_db_uses_a_connection_of_its_own (refused : conn.Call -> bool)
    (cursor : list conn.Call -> string -> list conn.arg -> conn.Rows)
    (query : string) (args : list conn.arg) (one : bool) (s : conn.Server) :
  let db := conn.opened (conn.calls s) in
  let rs := cursor (conn.calls s ++ [conn.connect db]) query args in
  refused (conn.connect db) = false ->
  refused (conn.execute db query args) = false ->
  refused (conn.fetchall db) = false ->
  conn.query_db refused cursor query args one s =
    (inr (if one then match rs with r :: _ => conn.One r | [] => conn.PyNone end
          else conn.All rs),
     conn.mkServer (conn.contexts s)
       (conn.calls s ++ [conn.connect db; conn.execute db query args; conn.fetchall db])).
Proof.
  intros db rs Hc He Hf. subst db rs. destruct s as [gs cs].
  cbn [conn.contexts conn.calls] in *.
  unfold conn.query_db, conn.app_context, conn.bind, conn.get_db, conn.getattr_g_db,
    conn.connect_db, conn.setattr_g_db, conn.execute_query, conn.bind, conn.call,
    conn.ret.
  cbn [conn.contexts conn.calls]. rewrite Hc. cbn. rewrite He. cbn. rewrite Hf. cbn.
  now rewrite <- !app_assoc.
Qed.

Lemma query_db_uses_a_connection_of_its_own_witness :
  conn.query_db (fun _ => false) (fun _ _ _ => []) "SELECT" [] true
    (conn.mkServer [Some 0%nat] [conn.connect 0%nat]) =
    (inr conn.PyNone,
     conn.mkServer [Some 0%nat]
       ([conn.connect 0%nat]
        ++ [conn.connect 1%nat; conn.execute 1%nat "SELECT" []; conn.fetchall 1%nat])).
Proof.
  apply (@query_db_uses_a_connection_of_its_own (fun _ => false) (fun _ _ _ => [])
           "SELECT" [] true (conn.mkServer [Some 0%nat] [conn.connect 0%nat]));
    reflexivity.
Defined.

(** X14.  [get_db] opens a connection once for a context.  When [get_db]
    returns a connection, it has opened at most that one, the context now
    holds it, and calling [get_db] again returns the same connection
    without any call to sqlite3. *)
Theorem get_db_memoizes (refused : conn.Call -> bool) (s s1 : conn.Server)
    (db : conn.Connection) :
  conn.get_db refused s = (inr db, s1) ->
  conn.get_db refused s1 = (inr db, s1)
  /\ (exists outer, conn.contexts s1 = Some db :: outer)
  /\ (conn.calls s1 = conn.calls s
      \/ conn.calls s1 = conn.calls s ++ [conn.connect db]).
Proof.
  destruct s as [gs cs].
  unfold conn.get_db, conn.bind, conn.getattr_g_db, conn.connect_db, conn.bind,
    conn.call, conn.setattr_g_db, conn.ret.
  cbn [conn.contexts conn.calls].
  destruct gs as [|[c|] outer]; cbn.
  - intros H. discriminate H.
  - intros H. injection H as <- <-. cbn. eauto.
  - destruct (refused (conn.connect _)); cbn; intros H;
      [discriminate H|].
    injection H as <- <-. cbn. eauto.
Qed.

Lemma get_db_memoizes_witness :
  conn.get_db (fun _ => false)
    (conn.mkServer [Some 0%nat] [conn.connect 0%nat]) =
    (inr 0%nat, conn.mkServer [Some 0%nat] [conn.connect 0%nat])
  /\ (exists outer, [Some 0%nat] = Some 0%nat :: outer)
  /\ ([conn.connect 0%nat] = []
      \/ [conn.connect 0%nat] = [] ++ [conn.connect 0%nat]).
Proof.
  apply (@get_db_memoizes (fun _ => false) (conn.mkServer [None] [])
           (conn.mkServer [Some 0%nat] [conn.connect 0%nat]) 0%nat).
  reflexivity.
Defined.

(** X15.  A request closes the connection it opened.  In an application
    context, [before_request] followed by [teardown_request] opens the next
    connection and closes that same connection, with no other call.  If
    sqlite3 refuses the connection, [before_request] raises and leaves [g]
    as it was; and [teardown_request] in a context whose [g] has no [db]
    returns without a call. *)
Theorem request_closes_its_connection (refused : conn.Call -> bool)
    (s : conn.Server) (g : option conn.Connection)
    (outer : list (option conn.Connection)) :
  conn.contexts s = g :: outer ->
  let db := conn.opened (conn.calls s) in
  (refused (conn.connect db) = false ->
   refused (conn.close db) = false ->
   conn.bind (conn.before_request refused) (fun _ => conn.teardown_request refused) s =
     (inr tt,
      conn.mkServer (Some db :: outer) (conn.calls s ++ [conn.connect db; conn.close db])))
  /\ (refused (conn.connect db) = true ->
      conn.before_request refused s = (inl conn.sqlite3_Error, s))
  /\ (g = None -> conn.teardown_request refused s = (inr tt, s)).
Proof.
  destruct s as [gs cs]. cbn [conn.contexts conn.calls]. intros ->.
  unfold conn.before_request, conn.teardown_request, conn.bind, conn.getattr_g_db,
    conn.connect_db, conn.bind, conn.call, conn.setattr_g_db, conn.ret.
  cbn [conn.contexts conn.calls].
  split; [|split].
  - intros Hc Hcl. rewrite Hc. cbn. rewrite Hcl. cbn. now rewrite <- app_assoc.
  - intros Hc. rewrite Hc. reflexivity.
  - intros ->. reflexivity.
Qed.

Lemma request_closes_its_connection_witness :
  conn.bind (conn.before_request (fun _ => false))
            (fun _ => conn.teardown_request (fun _ => false))
            (conn.mkServer [None] []) =
    (inr tt,
     conn.mkServer [Some 0%nat] ([] ++ [conn.connect 0%nat; conn.close 0%nat])).
Proof.
  apply (@request_closes_its_connection (fun _ => false) (conn.mkServer [None] [])
           None [] eq_refl);
    reflexivity.
Defined.

(** X16.  [init_db] closes its connection on every path.  With or without
    an application context, once sqlite3 has given the connection and as
    long as it accepts the [close], the calls of [init_db] start with the
    [connect] and end with the [close] of the same connection, with no other
    [connect] or [close] between them; and [init_db] returns exactly when
    the schema file was read, and the script executed and committed. *)
Theorem init_db_closes_its_connection (refused : conn.Call -> bool)
    (SCHEMA_FILE : option string) (s : conn.Server) :
  let db := conn.opened (conn.calls s) in
  refused (conn.connect db) = false ->
  refused (conn.close db) = false ->
  exists r mid,
    conn.init_db refused SCHEMA_FILE s =
      (r, conn.mkServer (conn.contexts s)
            (conn.calls s ++ conn.connect db :: mid ++ [conn.close db]))
    /\ filter conn.is_connect mid = []
    /\ filter conn.is_close mid = []
    /\ (r = inr tt <->
        exists script,
          SCHEMA_FILE = Some script
          /\ mid = [conn.executescript db script; conn.commit db]).
Proof.
  intros db Hc Hcl. subst db. destruct s as [gs cs].
  cbn [conn.contexts conn.calls] in *.
  unfold conn.init_db, conn.closing, conn.read_schema, conn.bind, conn.connect_db,
    conn.bind, conn.call, conn.ret, conn.raise.
  cbn [conn.contexts conn.calls]. rewrite Hc. cbn.
  destruct SCHEMA_FILE as [script|]; cbn.
  - destruct (refused (conn.executescript (conn.opened cs) script)) eqn:He; cbn.
    + rewrite Hcl. exists (inl conn.sqlite3_Error), []. cbn.
      rewrite <- app_assoc. repeat split; try discriminate.
      intros (script' & _ & H). discriminate H.
    + destruct (refused (conn.commit (conn.opened cs))) eqn:Hco; cbn; rewrite Hcl.
      * exists (inl conn.sqlite3_Error), [conn.executescript (conn.opened cs) script].
        cbn. rewrite <- !app_assoc. repeat split; try discriminate.
        intros (script' & _ & H). discriminate H.
      * exists (inr tt), [conn.executescript (conn.opened cs) script;
                          conn.commit (conn.opened cs)].
        cbn. rewrite <- !app_assoc. repeat split; eauto.
  - rewrite Hcl. exists (inl conn.IOError), []. cbn.
    rewrite <- app_assoc. repeat split; try discriminate.
    intros (script' & H & _). discriminate H.
Qed.

Lemma init_db_closes_its_connection_witness :
  exists r mid,
    conn.init_db (fun _ => false) None (conn.mkServer [] []) =
      (r, conn.mkServer [] ([] ++ conn.connect 0%nat :: mid ++ [conn.close 0%nat]))
    /\ filter conn.is_connect mid = []
    /\ filter conn.is_close mid = []
    /\ (r = inr tt <->
        exists script,
          None = Some script
          /\ mid = [conn.executescript 0%nat script; conn.commit 0%nat]).
Proof.
  apply (@init_db_closes_its_connection (fun _ => false) None (conn.mkServer [] []));
    reflexivity.
Defined.

(** One query of the statistics, when sqlite3 accepts every call and the
    cursor holds one row with the cell [v]. *)
Lemma getter_returns (refused : conn.Call -> bool)
    (cursor : list conn.Call -> string -> list conn.arg -> conn.Rows)
    (query : string) (v : db.value) (z : Z) (s : conn.Server) :
  (forall c, refused c = false) ->
  (forall cs, cursor cs query [] = [[v]]) ->
  (forall s', conn.int v s' = (inr z, s')) ->
  conn.app_context
    (conn.bind (conn.query_db refused cursor query [] true)
       (fun x => conn.bind (conn.first x) (fun result => conn.int result))) s =
    (inr z,
     conn.mkServer (conn.contexts s)
       (conn.calls s
        ++ [conn.connect (conn.opened (conn.calls s));
            conn.execute (conn.opened (conn.calls s)) query [];
            conn.fetchall (conn.opened (conn.calls s))])).
Proof.
  intros Hok Hcur Hint. destruct s as [gs cs].
  unfold conn.app_context, conn.query_db, conn.app_context, conn.bind, conn.get_db,
    conn.getattr_g_db, conn.connect_db, conn.setattr_g_db, conn.execute_query,
    conn.bind, conn.call, conn.ret.
  cbn [conn.contexts conn.calls]. rewrite !Hok. cbn. rewrite !Hok. cbn.
  rewrite Hcur. cbn. rewrite Hint. cbn. now rewrite <- !app_assoc.
Qed.

(** X17.  The two accounts of [get_state] agree.  When sqlite3 accepts
    every call and answers each of the five queries with the aggregate of
    the table, [get_state] over the connections returns the dictionary that
    [get_state] over the table returns, with the five values in their
    places; neither [x[0]] nor [int] raises. *)
Theorem get_state_reads_the_table (R : Rules) (refused : conn.Call -> bool)
    (t : db.Table) (s : conn.Server) (e : Env) (w : World R) :
  (forall c, refused c = false) ->
  chess_game w = t ->
  exists stats s',
    conn.get_state refused (conn.table_cursor t) s = (inr stats, s')
    /\ conn.contexts s' = conn.contexts s
    /\ get_state e w = (Returned stats, w).
Proof.
  intros Hok <-.
  exists (stats_of (chess_game w)).
  unfold conn.get_state, conn.get_n_of_games, conn.get_n_white_wins,
    conn.get_n_black_wins, conn.get_n_draws, conn.get_total_moves.
  cbv zeta.
  unfold conn.bind at 1.
  erewrite getter_returns; [|exact Hok|intros cs; reflexivity|intros s'; reflexivity].
  unfold conn.bind at 1.
  erewrite getter_returns; [|exact Hok|intros cs; reflexivity|intros s'; reflexivity].
  unfold conn.bind at 1.
  erewrite getter_returns; [|exact Hok|intros cs; reflexivity|intros s'; reflexivity].
  unfold conn.bind at 1.
  erewrite getter_returns; [|exact Hok|intros cs; reflexivity|intros s'; reflexivity].
  unfold conn.bind at 1.
  erewrite getter_returns; [|exact Hok|intros cs; reflexivity|intros s'; reflexivity].
  eexists. split; [reflexivity|]. split; [reflexivity|].
  apply get_state_returns.
Qed.

Lemma get_state_reads_the_table_witness :
  exists stats s',
    conn.get_state (fun _ => false) (conn.table_cursor [Book.mate_row])
      (conn.mkServer [] []) = (inr stats, s')
    /\ conn.contexts s' = []
    /\ get_state (Book.env 0 false) (Book.mated [Book.mate_row]) =
         (Returned stats, Book.mated [Book.mate_row]).
Proof.
  apply (@get_state_reads_the_table Book.rules (fun _ => false) [Book.mate_row]
           (conn.mkServer [] []) (Book.env 0 false) (Book.mated [Book.mate_row]));
    reflexivity.
Defined.
